(** * IPSSI_PATCH: the request validators of [backend/server.js]

    A shallow embedding of the two Express middlewares [validateUserId] and
    [sanitizeComment], of the JavaScript coercions they rely on ([!v],
    [isNaN(v)], [v.length], [v.replace]) and of the four routes that talk
    to the SQLite store, followed by the properties the specification
    states about them.  The two handlers of the earlier version of the
    server, which had the same checks inline, are embedded as well and
    compared with the patched routes.

    Conventions.
    - A JavaScript string is held as a Rocq [string], read as the UTF-8
      bytes of the text.  The four characters the sanitizer rewrites and
      every character of a numeric literal are ASCII, and no byte of a
      multi-byte UTF-8 sequence is ASCII, so replacing bytes and replacing
      UTF-16 code units agree.
    - A JavaScript Number is held by the decimal expansion that
      [Number.prototype.toString] prints for it.
    - An object produced by [express.json()] is a finite map from property
      names to values; none of its properties is callable. *)

From Stdlib Require Import ZArith String Ascii List Bool Lia DecimalString Sorted.
From stdpp Require Import base option list gmap strings.

Set Warnings "-register-all".
Local Open Scope Z_scope.

(** ** JavaScript values *)

(** [Finite neg m e] stands for [(-1)^neg * m * 10^e]. *)
Inductive number :=
| NaN
| Infinity (neg : bool)
| Zero (neg : bool)
| Finite (neg : bool) (m : positive) (e : Z).

Inductive value :=
| VUndefined
| VNull
| VBool (b : bool)
| VNumber (x : number)
| VString (s : string)
| VArray (l : list value)
| VObject (o : gmap string value).

Inductive error :=
| TypeError.

Inductive completion (A : Type) :=
| Normal (a : A)
| Throw (e : error).
Arguments Normal {A} a.
Arguments Throw {A} e.

#[global] Instance completion_ret : MRet completion := fun _ a => Normal a.

#[global] Instance completion_bind : MBind completion := fun _ _ k c =>
  match c with
  | Normal a => k a
  | Throw e => Throw e
  end.

Definition number_of_Z (z : Z) : number :=
  match z with
  | Z0 => Zero false
  | Zpos p => Finite false p 0
  | Zneg p => Finite true p 0
  end.

(** ** Characters *)

Definition dquote : ascii := "034"%char.

Definition code (c : ascii) : N := N_of_ascii c.

Definition between (lo hi c : ascii) : bool :=
  (code lo <=? code c)%N && (code c <=? code hi)%N.

Definition is_digit (c : ascii) : bool := between "0" "9" c.

Definition is_hex_digit (c : ascii) : bool :=
  is_digit c || between "a" "f" c || between "A" "F" c.

Definition is_octal_digit (c : ascii) : bool := between "0" "7" c.

Definition is_binary_digit (c : ascii) : bool := between "0" "1" c.

Definition is_sign (c : ascii) : bool :=
  Ascii.eqb c "+" || Ascii.eqb c "-".

(** WhiteSpace and LineTerminator code points below U+0080:
    TAB, LF, VT, FF, CR, SP. *)
Definition ws1 (c : ascii) : bool :=
  between "009" "013" c || Ascii.eqb c " ".

(** U+00A0 (NBSP), as the two bytes C2 A0. *)
Definition ws2 (c1 c2 : ascii) : bool :=
  Ascii.eqb c1 "194" && Ascii.eqb c2 "160".

(** The three-byte ones: U+1680, U+2000..U+200A, U+2028, U+2029, U+202F,
    U+205F, U+3000 and U+FEFF. *)
Definition ws3 (c1 c2 c3 : ascii) : bool :=
  (Ascii.eqb c1 "225" && Ascii.eqb c2 "154" && Ascii.eqb c3 "128")
  || (Ascii.eqb c1 "226" && Ascii.eqb c2 "128"
      && (between "128" "138" c3 || Ascii.eqb c3 "168" || Ascii.eqb c3 "169"
          || Ascii.eqb c3 "175"))
  || (Ascii.eqb c1 "226" && Ascii.eqb c2 "129" && Ascii.eqb c3 "159")
  || (Ascii.eqb c1 "227" && Ascii.eqb c2 "128" && Ascii.eqb c3 "128")
  || (Ascii.eqb c1 "239" && Ascii.eqb c2 "187" && Ascii.eqb c3 "191").

(** ** String helpers *)

Fixpoint drop_while (p : ascii -> bool) (s : string) : string :=
  match s with
  | String c r => if p c then drop_while p r else s
  | EmptyString => s
  end.

Definition head_is (p : ascii -> bool) (s : string) : bool :=
  match s with
  | String c _ => p c
  | EmptyString => false
  end.

Fixpoint strip_prefix (p s : string) : option string :=
  match p, s with
  | EmptyString, _ => Some s
  | String a p', String b s' => if Ascii.eqb a b then strip_prefix p' s' else None
  | String _ _, EmptyString => None
  end.

Definition starts_with (p s : string) : bool :=
  match strip_prefix p s with
  | Some _ => true
  | None => false
  end.

Definition is_empty (s : string) : bool :=
  match s with
  | EmptyString => true
  | String _ _ => false
  end.

Fixpoint zeros (n : nat) : string :=
  match n with
  | O => EmptyString
  | S n' => String "0" (zeros n')
  end.

(** [trim_start s] drops the leading StrWhiteSpaceChar's of [s]. *)
Fixpoint trim_start (s : string) : string :=
  match s with
  | String c1 r1 =>
      if ws1 c1 then trim_start r1
      else
        match r1 with
        | String c2 r2 =>
            if ws2 c1 c2 then trim_start r2
            else
              match r2 with
              | String c3 r3 => if ws3 c1 c2 c3 then trim_start r3 else s
              | EmptyString => s
              end
        | EmptyString => s
        end
  | EmptyString => s
  end.

(** StrWhiteSpace_opt: the whole of [s] is white space. *)
Definition StrWhiteSpace_opt (s : string) : bool := is_empty (trim_start s).

(** ** [String.prototype.replace] with a one-character global pattern *)

(** [replace_all c by s] is [s.replace(/c/g, by)] for a replacement [by]
    free of [$] patterns. *)
Fixpoint replace_all (c : ascii) (by_ : string) (s : string) : string :=
  match s with
  | EmptyString => EmptyString
  | String x r =>
      if Ascii.eqb x c then by_ +:+ replace_all c by_ r
      else String x (replace_all c by_ r)
  end.

(** The chain of [sanitizeComment], lines 57-61. *)
Definition sanitize (content : string) : string :=
  replace_all dquote "&quot;"
    (replace_all ">" "&gt;"
       (replace_all "<" "&lt;"
          (replace_all "&" "&amp;" content))).

(** ** [Number::toString] (radix 10) *)

Fixpoint strip_trailing_zeros (s : string) : string :=
  match s with
  | EmptyString => EmptyString
  | String c r =>
      match strip_trailing_zeros r with
      | EmptyString => if Ascii.eqb c "0" then EmptyString else String c EmptyString
      | r' => String c r'
      end
  end.

Definition decimal_of_N (n : N) : string :=
  NilZero.string_of_uint (N.to_uint n).

(** With [s] the [k] significant digits of the number and [n] the position
    of its decimal point, the four layouts of the standard. *)
Definition Number_toString_finite (m : positive) (e : Z) : string :=
  let all := NilEmpty.string_of_uint (Pos.to_uint m) in
  let s := strip_trailing_zeros all in
  let k := Z.of_nat (String.length s) in
  let n := e + Z.of_nat (String.length all) in
  if ((k <=? n) && (n <=? 21))%Z then
    s +:+ zeros (Z.to_nat (n - k))
  else if ((0 <? n) && (n <=? 21))%Z then
    substring 0 (Z.to_nat n) s +:+ "." +:+ substring (Z.to_nat n) (Z.to_nat (k - n)) s
  else if ((-6 <? n) && (n <=? 0))%Z then
    "0." +:+ zeros (Z.to_nat (- n)) +:+ s
  else
    let exponent :=
      (if (n - 1 <? 0)%Z then "-" else "+") +:+ decimal_of_N (Z.abs_N (n - 1)) in
    if (k =? 1)%Z then s +:+ "e" +:+ exponent
    else substring 0 1 s +:+ "." +:+ substring 1 (Z.to_nat (k - 1)) s
         +:+ "e" +:+ exponent.

Definition Number_toString (x : number) : string :=
  match x with
  | NaN => "NaN"
  | Zero _ => "0"
  | Infinity neg => if neg then "-Infinity" else "Infinity"
  | Finite neg m e =>
      (if neg then "-" else EmptyString) +:+ Number_toString_finite m e
  end.

(** ** [ToBoolean], [ToString], [ToNumber] *)

Definition ToBoolean (v : value) : bool :=
  match v with
  | VUndefined | VNull => false
  | VBool b => b
  | VNumber NaN | VNumber (Zero _) => false
  | VNumber _ => true
  | VString s => negb (is_empty s)
  | VArray _ | VObject _ => true
  end.

(** An object parsed from JSON answers [toString()] with
    ["[object Object]"], unless it has a property of that name: the
    property is not callable, [valueOf] gives back the object itself, and
    OrdinaryToPrimitive is left with nothing to call. *)
Definition Object_toString (o : gmap string value) : completion string :=
  match o !! "toString" with
  | Some _ => Throw TypeError
  | None => Normal "[object Object]"
  end.

(** [ToString], with [Array.prototype.join] for arrays: elements that are
    [undefined] or [null] print as the empty string. *)
Fixpoint ToString (v : value) : completion string :=
  match v with
  | VUndefined => Normal "undefined"
  | VNull => Normal "null"
  | VBool b => Normal (if b then "true" else "false")
  | VNumber x => Normal (Number_toString x)
  | VString s => Normal s
  | VObject o => Object_toString o
  | VArray l =>
      (fix join (l : list value) : completion string :=
         match l with
         | [] => Normal EmptyString
         | x :: rest =>
             first ← match x with
                     | VUndefined | VNull => Normal EmptyString
                     | _ => ToString x
                     end;
             match rest with
             | [] => Normal first
             | _ :: _ => others ← join rest; Normal (first +:+ "," +:+ others)
             end
         end) l
  end.

(** *** StringToNumber: which strings are a StringNumericLiteral

    Each recogniser below takes what is left of the string and accepts when
    its production, followed by white space only, is all that is left. *)

(** ExponentPart_opt StrWhiteSpace_opt *)
Definition ExponentPart_opt (s : string) : bool :=
  match s with
  | String c r =>
      if Ascii.eqb c "e" || Ascii.eqb c "E" then
        let digits := match r with
                      | String sg r' => if is_sign sg then r' else r
                      | EmptyString => r
                      end in
        head_is is_digit digits && StrWhiteSpace_opt (drop_while is_digit digits)
      else StrWhiteSpace_opt s
  | EmptyString => true
  end.

(** StrUnsignedDecimalLiteral StrWhiteSpace_opt *)
Definition StrUnsignedDecimalLiteral (s : string) : bool :=
  match strip_prefix "Infinity" s with
  | Some r => StrWhiteSpace_opt r
  | None =>
      match drop_while is_digit s with
      | String "." fraction =>
          (head_is is_digit s || head_is is_digit fraction)
          && ExponentPart_opt (drop_while is_digit fraction)
      | r => head_is is_digit s && ExponentPart_opt r
      end
  end.

(** StrDecimalLiteral StrWhiteSpace_opt *)
Definition StrDecimalLiteral (s : string) : bool :=
  match s with
  | String c r => if is_sign c then StrUnsignedDecimalLiteral r
                  else StrUnsignedDecimalLiteral s
  | EmptyString => false
  end.

(** NonDecimalIntegerLiteral StrWhiteSpace_opt *)
Definition NonDecimalIntegerLiteral (s : string) : bool :=
  match s with
  | String "0" (String x r) =>
      let digits p := head_is p r && StrWhiteSpace_opt (drop_while p r) in
      if Ascii.eqb x "x" || Ascii.eqb x "X" then digits is_hex_digit
      else if Ascii.eqb x "o" || Ascii.eqb x "O" then digits is_octal_digit
      else if Ascii.eqb x "b" || Ascii.eqb x "B" then digits is_binary_digit
      else false
  | _ => false
  end.

(** StringNumericLiteral: white space alone (the number 0), or a literal
    with white space on either side. *)
Definition StringNumericLiteral (s : string) : bool :=
  let t := trim_start s in
  is_empty t || StrDecimalLiteral t || NonDecimalIntegerLiteral t.

(** [isNaN(v)]: [ToNumber(v)] is NaN.  Arrays and objects go through
    ToPrimitive, which for them comes to [ToString]. *)
Definition isNaN (v : value) : completion bool :=
  match v with
  | VUndefined => Normal true
  | VNull | VBool _ => Normal false
  | VNumber x => Normal match x with NaN => true | _ => false end
  | VString s => Normal (negb (StringNumericLiteral s))
  | VArray _ | VObject _ =>
      s ← ToString v; Normal (negb (StringNumericLiteral s))
  end.

(** ** The SQLite store *)

Record user := User {
  user_id : Z;
  user_name : string;
  user_password : string
}.

(** SQLite keeps the value that was bound to the [content] parameter. *)
Record comment := Comment {
  comment_id : Z;
  comment_content : value
}.

(** Rows in insertion order; [comments_seq] is the AUTOINCREMENT counter
    of the comments table. *)
Record database := Database {
  users : list user;
  comments : list comment;
  comments_seq : Z
}.

(** The calls a handler makes on the [db] handle. *)
Inductive db_call :=
| DbAll (sql : string) (params : list value)
| DbGet (sql : string) (params : list value)
| DbRun (sql : string) (params : list value).

Definition id_row (u : user) : value :=
  VObject {[ "id" := VNumber (number_of_Z (user_id u)) ]}.

Definition user_row (u : user) : value :=
  VObject {[ "id" := VNumber (number_of_Z (user_id u));
             "name" := VString (user_name u) ]}.

Definition comment_row (c : comment) : value :=
  VObject {[ "id" := VNumber (number_of_Z (comment_id c));
             "content" := comment_content c ]}.

Fixpoint insert_by_id_desc (c : comment) (l : list comment) : list comment :=
  match l with
  | [] => [c]
  | x :: r => if (comment_id x <? comment_id c)%Z then c :: l
              else x :: insert_by_id_desc c r
  end.

(** ORDER BY id DESC *)
Definition order_by_id_desc (l : list comment) : list comment :=
  foldr insert_by_id_desc [] l.

(** INSERT INTO comments (content) VALUES (?) *)
Definition insert_comment (content : value) (d : database) : database :=
  {| users := users d;
     comments := comments d ++ [Comment (comments_seq d + 1) content];
     comments_seq := comments_seq d + 1 |}.

(** A comparison of keys for the examples: a Number equal to the key, or
    the key spelled in decimal. *)
Definition integer_key_eq (id : Z) (param : value) : bool :=
  match param with
  | VNumber x =>
      match x, number_of_Z id with
      | Zero _, Zero _ => true
      | Finite n m e, Finite n' m' e' =>
          Bool.eqb n n' && Pos.eqb m m' && Z.eqb e e'
      | _, _ => false
      end
  | VString s => String.eqb s (Number_toString (number_of_Z id))
  | _ => false
  end.

(** ** Requests, responses and the two middlewares *)

Record request := Request {
  body : gmap string value
}.

Inductive response :=
| Json (status : nat) (payload : value)
| Send (status : nat) (payload : string).

(** A middleware calls [next()], answers the request itself, or throws. *)
Inductive middleware :=
| Next (req : request)
| Respond (r : response)
| Raise (e : error).

(** [const { k } = o] *)
Definition Get (o : gmap string value) (k : string) : value :=
  default VUndefined (o !! k).

Definition error_payload (msg : string) : value :=
  VObject {[ "error" := VString msg ]}.

(** Lines 36-45. *)
Definition validateUserId (req : request) : middleware :=
  let id := Get (body req) "id" in
  if negb (ToBoolean id) then Respond (Json 400 (error_payload "Invalid ID"))
  else
    match isNaN id with
    | Throw e => Raise e
    | Normal true => Respond (Json 400 (error_payload "Invalid ID"))
    | Normal false => Next req
    end.

(** [v.length === 0] *)
Definition length_is_zero (v : value) : completion bool :=
  match v with
  | VUndefined | VNull => Throw TypeError
  | VString s => Normal (is_empty s)
  | VArray l => Normal match l with [] => true | _ :: _ => false end
  | VObject o =>
      Normal match o !! "length" with
             | Some (VNumber (Zero _)) => true
             | _ => false
             end
  | VBool _ | VNumber _ => Normal false
  end.

(** [v.replace(/&/g, ...).replace(/</g, ...)...]: only a String has a
    [replace] method; on anything else the first call throws. *)
Definition replace_chain (v : value) : completion value :=
  match v with
  | VString s => Normal (VString (sanitize s))
  | _ => Throw TypeError
  end.

(** Lines 47-65. *)
Definition sanitizeComment (req : request) : middleware :=
  let content := Get (body req) "content" in
  match (if negb (ToBoolean content) then Normal true
         else length_is_zero content) with
  | Throw e => Raise e
  | Normal true => Respond (Json 400 (error_payload "Comment cannot be empty"))
  | Normal false =>
      match replace_chain content with
      | Throw e => Raise e
      | Normal content' =>
          Next {| body := <[ "content" := content' ]> (body req) |}
      end
  end.

(** ** The routes *)

(** What handling one request leaves behind: the store, the calls made on
    it, and the response sent, or the exception that escaped the
    middleware. *)
Record outcome := Outcome {
  store : database;
  calls : list db_call;
  reply : completion response
}.

Inductive operation :=
| GET_users
| POST_user (req : request)
| POST_comment (req : request)
| GET_comments.

Section Routes.

(** How SQLite compares the INTEGER key of a row with a bound
    parameter. *)
Variable sql_eq : Z -> value -> bool.

(** SELECT id, name FROM users WHERE id = ?  through [db.get]: the first
    row, if any. *)
Definition select_user (param : value) (d : database) : option value :=
  user_row <$> find (fun u => sql_eq (user_id u) param) (users d).

(** In each route [fault] is the error, if any, that the store hands to
    the callback. *)

(** Lines 144-152. *)
Definition route_users (fault : option string) (d : database) : outcome :=
  {| store := d;
     calls := [DbAll "SELECT id FROM users" []];
     reply := Normal match fault with
                     | Some _ => Send 500 "Database error"
                     | None => Json 200 (VArray (id_row <$> users d))
                     end |}.

(** Lines 159-174. *)
Definition route_user (fault : option string) (d : database) (req : request)
  : outcome :=
  match validateUserId req with
  | Raise e => {| store := d; calls := []; reply := Throw e |}
  | Respond r => {| store := d; calls := []; reply := Normal r |}
  | Next req' =>
      let id := Get (body req') "id" in
      {| store := d;
         calls := [DbGet "SELECT id, name FROM users WHERE id = ?" [id]];
         reply := Normal match fault with
                         | Some msg => Json 500 (error_payload msg)
                         | None =>
                             Json 200 match select_user id d with
                                      | Some row => VArray [row]
                                      | None => VArray []
                                      end
                         end |}
  end.

(** Lines 181-195. *)
Definition route_comment (fault : option string) (d : database)
    (req : request) : outcome :=
  match sanitizeComment req with
  | Raise e => {| store := d; calls := []; reply := Throw e |}
  | Respond r => {| store := d; calls := []; reply := Normal r |}
  | Next req' =>
      let content := Get (body req') "content" in
      {| store := match fault with
                  | Some _ => d
                  | None => insert_comment content d
                  end;
         calls := [DbRun "INSERT INTO comments (content) VALUES (?)" [content]];
         reply := Normal match fault with
                         | Some msg => Json 500 (error_payload msg)
                         | None => Json 200 (VObject {[ "success" := VBool true ]})
                         end |}
  end.

(** Lines 198-206. *)
Definition route_comments (fault : option string) (d : database) : outcome :=
  {| store := d;
     calls := [DbAll "SELECT * FROM comments ORDER BY id DESC" []];
     reply := Normal match fault with
                     | Some _ => Send 500 "Database error"
                     | None =>
                         Json 200 (VArray (comment_row <$> order_by_id_desc (comments d)))
                     end |}.

Definition handle (op : operation) (fault : option string) (d : database)
  : outcome :=
  match op with
  | GET_users => route_users fault d
  | POST_user req => route_user fault d req
  | POST_comment req => route_comment fault d req
  | GET_comments => route_comments fault d
  end.

End Routes.

(** ** The vocabulary of the specification *)

(** The escape sequence the specification assigns to a character. *)
Definition escape_char (c : ascii) : string :=
  if Ascii.eqb c "&" then "&amp;"
  else if Ascii.eqb c "<" then "&lt;"
  else if Ascii.eqb c ">" then "&gt;"
  else if Ascii.eqb c dquote then "&quot;"
  else String c EmptyString.

(** The transformation in the specification's words: every occurrence of
    one of the four characters is replaced by its escape sequence, in a
    single pass over the submitted text. *)
Fixpoint escape_each (s : string) : string :=
  match s with
  | EmptyString => EmptyString
  | String c r => escape_char c +:+ escape_each r
  end.

Definition is_markup (c : ascii) : bool :=
  Ascii.eqb c "&" || Ascii.eqb c "<" || Ascii.eqb c ">" || Ascii.eqb c dquote.

(** Only safe characters: none of the four. *)
Fixpoint no_markup (s : string) : bool :=
  match s with
  | EmptyString => true
  | String c r => negb (is_markup c) && no_markup r
  end.

(** No unescaped markup character: no [<], [>] or double quote at all,
    and every [&] begins one of the four escape sequences. *)
Fixpoint well_escaped (s : string) : bool :=
  match s with
  | EmptyString => true
  | String c r =>
      if Ascii.eqb c "&" then
        (starts_with "amp;" r || starts_with "lt;" r
         || starts_with "gt;" r || starts_with "quot;" r)
        && well_escaped r
      else negb (is_markup c) && well_escaped r
  end.

Fixpoint all_digits (s : string) : bool :=
  match s with
  | EmptyString => true
  | String c r => is_digit c && all_digits r
  end.

(** One or more decimal digits. *)
Definition digits1 (s : string) : bool :=
  negb (is_empty s) && all_digits s.

Definition minus_sign (minus : bool) : string :=
  if minus then "-" else EmptyString.

(** A string that spells a number the plain way: an optional minus sign,
    digits, and possibly a decimal point followed by digits. *)
Inductive decimal_numeral : string -> Prop :=
| numeral_integer (minus : bool) (int : string) :
    digits1 int = true ->
    decimal_numeral (minus_sign minus +:+ int)
| numeral_fraction (minus : bool) (int frac : string) :
    digits1 int = true -> digits1 frac = true ->
    decimal_numeral (minus_sign minus +:+ int +:+ "." +:+ frac).

(** A numeric identifier input: a Number, or a string that spells one. *)
Definition numeric_input (v : value) : Prop :=
  match v with
  | VNumber x => x <> NaN
  | VString s => decimal_numeral s
  | _ => False
  end.

Definition is_zero (v : value) : bool :=
  match v with
  | VNumber (Zero _) => true
  | _ => false
  end.

(** A positive integer, as a Number or spelled in decimal digits. *)
Definition positive_integer_identifier (v : value) : bool :=
  match v with
  | VNumber (Finite false m e) =>
      (0 <=? e)%Z || (Zpos m mod 10 ^ (- e) =? 0)%Z
  | VString s => digits1 s && negb (all_digits s && is_empty (drop_while (Ascii.eqb "0") s))
  | _ => false
  end.

(** The submitted property is empty or absent. *)
Definition empty_or_absent (o : gmap string value) (k : string) : Prop :=
  o !! k = None \/ o !! k = Some VNull \/ o !! k = Some (VString EmptyString).

(** What a store shows of a user besides the credential. *)
Definition public_part (u : user) : Z * string := (user_id u, user_name u).

(** Two stores that differ at most in stored passwords. *)
Definition same_but_passwords (d1 d2 : database) : Prop :=
  public_part <$> users d1 = public_part <$> users d2
  /\ comments d1 = comments d2
  /\ comments_seq d1 = comments_seq d2.

(** A stored comment holds escaped text. *)
Definition escaped_comment (c : comment) : Prop :=
  exists s, comment_content c = VString s /\ well_escaped s = true.

(** ** The handlers before the checks were made middlewares

    The earlier version of the server has the same two routes with their
    checks written inline. *)

Section EarlierRoutes.

Variable sql_eq : Z -> value -> bool.

(** The earlier [/user] handler: the test of [validateUserId], inline,
    then the same query. *)
Definition earlier_route_user (fault : option string) (d : database)
    (req : request) : outcome :=
  let id := Get (body req) "id" in
  match (if negb (ToBoolean id) then Normal true else isNaN id) with
  | Throw e => {| store := d; calls := []; reply := Throw e |}
  | Normal true =>
      {| store := d; calls := [];
         reply := Normal (Json 400 (error_payload "Invalid ID")) |}
  | Normal false =>
      {| store := d;
         calls := [DbGet "SELECT id, name FROM users WHERE id = ?" [id]];
         reply := Normal match fault with
                         | Some msg => Json 500 (error_payload msg)
                         | None =>
                             Json 200 match select_user sql_eq id d with
                                      | Some row => VArray [row]
                                      | None => VArray []
                                      end
                         end |}
  end.

(** The earlier [/comment] handler: the emptiness test inline, and the
    content bound as submitted. *)
Definition earlier_route_comment (fault : option string) (d : database)
    (req : request) : outcome :=
  let content := Get (body req) "content" in
  match (if negb (ToBoolean content) then Normal true
         else length_is_zero content) with
  | Throw e => {| store := d; calls := []; reply := Throw e |}
  | Normal true =>
      {| store := d; calls := [];
         reply := Normal (Json 400 (error_payload "Comment cannot be empty")) |}
  | Normal false =>
      {| store := match fault with
                  | Some _ => d
                  | None => insert_comment content d
                  end;
         calls := [DbRun "INSERT INTO comments (content) VALUES (?)" [content]];
         reply := Normal match fault with
                         | Some msg => Json 500 (error_payload msg)
                         | None => Json 200 (VObject {[ "success" := VBool true ]})
                         end |}
  end.

End EarlierRoutes.

(** A session: the requests handled one after the other, each with the
    answer the store gives to its call. *)
Definition run (sql_eq : Z -> value -> bool)
    (ops : list (operation * option string)) (d : database) : database :=
  foldl (fun d' step => store (handle sql_eq step.1 step.2 d')) d ops.

(** ** Further vocabulary *)

Fixpoint all_chars (p : ascii -> bool) (s : string) : bool :=
  match s with
  | EmptyString => true
  | String c r => p c && all_chars p r
  end.

Fixpoint count_char (c : ascii) (s : string) : nat :=
  match s with
  | EmptyString => O
  | String x r => ((if Ascii.eqb x c then 1 else 0) + count_char c r)%nat
  end.

(** The characters a StringNumericLiteral can hold: white space (every
    byte of a multi-byte white space character is 128 or more), digits,
    the letters of a hexadecimal digit, of [Infinity] and of the radix
    prefixes, a sign, the decimal point. *)
Definition numeric_alphabet (c : ascii) : bool :=
  is_hex_digit c || is_sign c || Ascii.eqb c "."
  || Ascii.eqb c "x" || Ascii.eqb c "X" || Ascii.eqb c "o" || Ascii.eqb c "O"
  || Ascii.eqb c "I" || Ascii.eqb c "n" || Ascii.eqb c "i" || Ascii.eqb c "t"
  || Ascii.eqb c "y"
  || ws1 c || (128 <=? code c)%N.

Definition response_status (r : response) : nat :=
  match r with
  | Json status _ | Send status _ => status
  end.



(** The middleware called [next()]. *)
Definition passes (m : middleware) : bool :=
  match m with
  | Next _ => true
  | Respond _ | Raise _ => false
  end.


(** The comments are stored with increasing identifiers, none above the
    AUTOINCREMENT counter. *)
Definition comments_ordered (d : database) : Prop :=
  StronglySorted Z.lt (comment_id <$> comments d)
  /\ Forall (fun c => comment_id c <= comments_seq d) (comments d).

(** Largest identifier first. *)
Definition newest_first (l : list comment) : Prop :=
  StronglySorted (fun a b => comment_id b <= comment_id a) l.

(** ** Proofs *)

Ltac each_ascii c :=
  destruct c as [[] [] [] [] [] [] [] []].

(** *** Strings *)

Lemma app_nil_l (s : string) : EmptyString +:+ s = s.
Proof. reflexivity. Qed.

Lemma app_cons (c : ascii) (s t : string) :
  String c s +:+ t = String c (s +:+ t).
Proof. reflexivity. Qed.

Lemma app_nil_r (s : string) : s +:+ EmptyString = s.
Proof. induction s as [|c s IH]; [reflexivity|]. rewrite app_cons, IH. reflexivity. Qed.

Lemma length_app (s t : string) :
  String.length (s +:+ t) = (String.length s + String.length t)%nat.
Proof.
  induction s as [|c s IH]; [reflexivity|].
  rewrite app_cons. simpl. rewrite IH. reflexivity.
Qed.

(** *** The sanitizer *)

Lemma sanitize_cons (c : ascii) (s : string) :
  sanitize (String c s) = escape_char c +:+ sanitize s.
Proof. each_ascii c; reflexivity. Qed.

Lemma sanitize_escape_each (s : string) : sanitize s = escape_each s.
Proof.
  induction s as [|c s IH]; [reflexivity|].
  rewrite sanitize_cons, IH. reflexivity.
Qed.

Lemma well_escaped_escape_char (c : ascii) (t : string) :
  well_escaped (escape_char c +:+ t) = well_escaped t.
Proof. each_ascii c; reflexivity. Qed.

Lemma well_escaped_sanitize (s : string) : well_escaped (sanitize s) = true.
Proof.
  rewrite sanitize_escape_each.
  induction s as [|c s IH]; [reflexivity|].
  simpl. rewrite well_escaped_escape_char. exact IH.
Qed.

Lemma well_escaped_no_bracket (s : string) (c : ascii) :
  well_escaped s = true -> In c (list_ascii_of_string s) ->
  c <> "<"%char /\ c <> ">"%char /\ c <> dquote.
Proof.
  induction s as [|x s IH]; simpl; [tauto|].
  intros Hw [->|Hin].
  - clear IH. each_ascii c; simpl in Hw; try discriminate;
      repeat split; discriminate.
  - apply IH; [|exact Hin].
    destruct (Ascii.eqb x "&"); apply andb_true_iff in Hw; tauto.
Qed.

Lemma no_markup_escape_each (s : string) :
  no_markup s = true -> escape_each s = s.
Proof.
  induction s as [|c s IH]; simpl; [reflexivity|].
  intros [Hc Hs]%andb_true_iff. rewrite (IH Hs).
  clear IH Hs. each_ascii c; try reflexivity; discriminate.
Qed.

Lemma no_markup_sanitize (s : string) :
  no_markup s = true -> sanitize s = s.
Proof.
  intros H. rewrite sanitize_escape_each. apply no_markup_escape_each, H.
Qed.

Lemma length_escape_char (c : ascii) :
  (String.length (escape_char c) =
   if is_markup c then String.length (escape_char c) else 1)%nat
  /\ (1 <= String.length (escape_char c))%nat
  /\ (is_markup c = true -> 1 < String.length (escape_char c))%nat.
Proof. each_ascii c; simpl; repeat split; try lia; discriminate. Qed.

Lemma length_escape_each (s : string) :
  (String.length s <= String.length (escape_each s))%nat.
Proof.
  induction s as [|c s IH]; simpl; [lia|].
  rewrite length_app. pose proof (length_escape_char c) as (_ & H & _). lia.
Qed.

Lemma escape_each_fixed (s : string) :
  escape_each s = s -> no_markup s = true.
Proof.
  induction s as [|c s IH]; simpl; [reflexivity|].
  intros H. destruct (is_markup c) eqn:Hc; simpl.
  - exfalso. apply (f_equal String.length) in H.
    rewrite length_app in H. simpl in H.
    pose proof (length_escape_char c) as (_ & _ & Hlt).
    specialize (Hlt Hc). pose proof (length_escape_each s). lia.
  - apply IH.
    assert (escape_char c = String c EmptyString) as Hesc.
    { clear -Hc. each_ascii c; try reflexivity; discriminate. }
    rewrite Hesc, app_cons, app_nil_l in H. congruence.
Qed.

(** Were [&] escaped after [<] instead of before it, the [&] of [&lt;]
    would be escaped a second time. *)
Example ampersand_last_escapes_twice :
  replace_all "&" "&amp;" (replace_all "<" "&lt;" "&<") = "&amp;&amp;lt;".
Proof. reflexivity. Qed.

(** The strings the sanitizer leaves alone are exactly those without a
    markup character. *)
Lemma sanitize_fixed_point (s : string) :
  sanitize s = s <-> no_markup s = true.
Proof.
  split; [|apply no_markup_sanitize].
  rewrite sanitize_escape_each. apply escape_each_fixed.
Qed.

(** *** Numeric literals *)

Lemma trim_start_digit (c : ascii) (r : string) :
  is_digit c = true -> trim_start (String c r) = String c r.
Proof.
  intros H. each_ascii c; try discriminate H;
    destruct r as [|c2 [|c3 r]]; reflexivity.
Qed.

Lemma trim_start_minus (r : string) :
  trim_start (String "-" r) = String "-" r.
Proof. destruct r as [|c2 [|c3 r]]; reflexivity. Qed.

Lemma digit_not_sign (c : ascii) : is_digit c = true -> is_sign c = false.
Proof. each_ascii c; try discriminate; reflexivity. Qed.

Lemma digits1_cons (s : string) :
  digits1 s = true ->
  exists c r, s = String c r /\ is_digit c = true /\ all_digits r = true.
Proof.
  destruct s as [|c r]; [discriminate|].
  unfold digits1. simpl. intros [Hc Hr]%andb_true_iff. eauto.
Qed.

Lemma drop_while_digits (ds r : string) :
  all_digits ds = true -> head_is is_digit r = false ->
  drop_while is_digit (ds +:+ r) = r.
Proof.
  intros Hds Hr. induction ds as [|c ds IH].
  - rewrite app_nil_l. destruct r as [|x r]; [reflexivity|].
    simpl in *. rewrite Hr. reflexivity.
  - simpl in Hds. apply andb_true_iff in Hds as [Hc Hds].
    rewrite app_cons. simpl. rewrite Hc. auto.
Qed.

Lemma drop_while_all_digits (ds : string) :
  all_digits ds = true -> drop_while is_digit ds = EmptyString.
Proof.
  intros H. rewrite <- (app_nil_r ds) at 1.
  apply drop_while_digits; [exact H|reflexivity].
Qed.

Lemma head_digits1_app (ds r : string) :
  digits1 ds = true -> head_is is_digit (ds +:+ r) = true.
Proof.
  intros (c & t & -> & Hc & _)%digits1_cons. rewrite app_cons. exact Hc.
Qed.

Lemma not_Infinity (s : string) :
  head_is is_digit s = true -> strip_prefix "Infinity" s = None.
Proof.
  destruct s as [|c r]; [discriminate|]. intros Hc.
  each_ascii c; try discriminate Hc; reflexivity.
Qed.

Lemma unsigned_integer (int : string) :
  digits1 int = true -> StrUnsignedDecimalLiteral int = true.
Proof.
  intros H. unfold StrUnsignedDecimalLiteral.
  pose proof (head_digits1_app int EmptyString H) as Hhead.
  rewrite app_nil_r in Hhead. rewrite (not_Infinity _ Hhead).
  apply andb_true_iff in H as [_ Hall].
  rewrite (drop_while_all_digits _ Hall), Hhead. reflexivity.
Qed.

Lemma unsigned_fraction (int frac : string) :
  digits1 int = true -> digits1 frac = true ->
  StrUnsignedDecimalLiteral (int +:+ "." +:+ frac) = true.
Proof.
  intros Hint Hfrac. unfold StrUnsignedDecimalLiteral.
  pose proof (head_digits1_app int ("." +:+ frac) Hint) as Hhead.
  rewrite (not_Infinity _ Hhead), Hhead.
  apply andb_true_iff in Hint as [_ Hint].
  apply andb_true_iff in Hfrac as [_ Hfrac].
  rewrite (drop_while_digits int ("." +:+ frac) Hint); [|reflexivity].
  change ("." +:+ frac) with (String "." frac). cbv iota beta.
  rewrite (drop_while_all_digits _ Hfrac). reflexivity.
Qed.

Lemma decimal_numeral_nonempty (s : string) :
  decimal_numeral s -> is_empty s = false.
Proof.
  intros [minus int (c & r & -> & _)%digits1_cons
         |minus int frac (c & r & -> & _)%digits1_cons _];
    destruct minus; reflexivity.
Qed.

Lemma decimal_numeral_literal (s : string) :
  decimal_numeral s -> StringNumericLiteral s = true.
Proof.
  intros H.
  assert (exists u, s = minus_sign false +:+ u /\ StrUnsignedDecimalLiteral u = true
                    /\ head_is is_digit u = true
          \/ s = minus_sign true +:+ u /\ StrUnsignedDecimalLiteral u = true)
    as (u & [(-> & Hu & Hhead)|(-> & Hu)]).
  { destruct H as [minus int Hint|minus int frac Hint Hfrac].
    - exists int. destruct minus; [right|left]; repeat split;
        auto using unsigned_integer.
      rewrite <- (app_nil_r int). auto using head_digits1_app.
    - exists (int +:+ "." +:+ frac). destruct minus; [right|left];
        repeat split; auto using unsigned_fraction, head_digits1_app. }
  - change (minus_sign false +:+ u) with u.
    destruct u as [|c r]; [discriminate|]. simpl in Hhead.
    unfold StringNumericLiteral. rewrite (trim_start_digit _ _ Hhead).
    unfold StrDecimalLiteral. rewrite (digit_not_sign _ Hhead), Hu.
    reflexivity.
  - change (minus_sign true +:+ u) with (String "-" u).
    unfold StringNumericLiteral. rewrite trim_start_minus.
    unfold StrDecimalLiteral.
    change (is_sign "-") with true. cbv iota. rewrite Hu. reflexivity.
Qed.

(** *** The middlewares *)

Lemma Get_Some (o : gmap string value) (k : string) (v : value) :
  o !! k = Some v -> Get o k = v.
Proof. unfold Get. intros ->. reflexivity. Qed.

Lemma Get_insert (o : gmap string value) (k : string) (v : value) :
  Get (<[ k := v ]> o) k = v.
Proof. unfold Get. rewrite lookup_insert_eq. reflexivity. Qed.

Lemma is_empty_false (s : string) : s <> EmptyString -> is_empty s = false.
Proof. destruct s; [congruence|reflexivity]. Qed.

Lemma sanitizeComment_string (req : request) (s : string) :
  body req !! "content" = Some (VString s) -> s <> EmptyString ->
  sanitizeComment req =
  Next {| body := <[ "content" := VString (sanitize s) ]> (body req) |}.
Proof.
  intros Hget Hs. unfold sanitizeComment.
  rewrite (Get_Some _ _ _ Hget). simpl.
  rewrite (is_empty_false _ Hs). reflexivity.
Qed.

(** Whatever [sanitizeComment] lets through had a non-empty string as its
    content, and leaves with that string sanitized. *)
Lemma sanitizeComment_Next (req req' : request) :
  sanitizeComment req = Next req' ->
  exists s, body req !! "content" = Some (VString s) /\ s <> EmptyString
            /\ req' = {| body := <[ "content" := VString (sanitize s) ]> (body req) |}.
Proof.
  unfold sanitizeComment, Get.
  destruct (body req !! "content") as [v|] eqn:Hget; simpl; [|discriminate].
  destruct v as [| |b|x|s|l|o]; simpl; try discriminate.
  - destruct b; discriminate.
  - destruct x; discriminate.
  - destruct s as [|c s]; simpl; [discriminate|].
    intros [= <-]. exists (String c s). repeat split. discriminate.
  - destruct l; discriminate.
  - destruct (o !! "length") as [[| | |[]| | |]|]; discriminate.
Qed.

Section RouteFacts.

Variable sql_eq : Z -> value -> bool.

(** A request that a middleware answers itself never reaches the
    store. *)
Lemma route_user_rejected (fault : option string) (d : database)
    (req : request) (r : response) :
  validateUserId req = Respond r ->
  route_user sql_eq fault d req =
  {| store := d; calls := []; reply := Normal r |}.
Proof. unfold route_user. intros ->. reflexivity. Qed.

Lemma route_comment_rejected (fault : option string) (d : database)
    (req : request) (r : response) :
  sanitizeComment req = Respond r ->
  route_comment fault d req =
  {| store := d; calls := []; reply := Normal r |}.
Proof. unfold route_comment. intros ->. reflexivity. Qed.

Lemma validateUserId_Next (req req' : request) :
  validateUserId req = Next req' -> req' = req.
Proof.
  unfold validateUserId.
  destruct (negb _); [discriminate|].
  destruct (isNaN _) as [[]|]; congruence.
Qed.

(** Only the comment route writes, and what it writes is escaped. *)
Lemma handle_keeps_comments_escaped (op : operation)
    (fault : option string) (d : database) :
  Forall escaped_comment (comments d) ->
  Forall escaped_comment (comments (store (handle sql_eq op fault d))).
Proof.
  intros Hd. destruct op as [|req|req|]; simpl; try exact Hd.
  - unfold route_user. destruct (validateUserId req); exact Hd.
  - unfold route_comment.
    destruct (sanitizeComment req) as [req'| |] eqn:Hs; try exact Hd.
    destruct fault; [exact Hd|]. simpl.
    apply sanitizeComment_Next in Hs as (s & _ & _ & ->). simpl.
    rewrite Get_insert. apply Forall_app. split; [exact Hd|].
    constructor; [|constructor].
    exists (sanitize s). simpl. auto using well_escaped_sanitize.
Qed.

Lemma select_user_same (param : value) (d1 d2 : database) :
  public_part <$> users d1 = public_part <$> users d2 ->
  select_user sql_eq param d1 = select_user sql_eq param d2.
Proof.
  unfold select_user. generalize (users d1) (users d2).
  induction l as [|u1 l1 IH]; intros [|u2 l2]; try discriminate;
    [reflexivity|].
  intros [= Hid Hname Hrest]. simpl. rewrite Hid.
  destruct (sql_eq (user_id u2) param).
  - simpl. unfold user_row. rewrite Hid, Hname. reflexivity.
  - apply IH, Hrest.
Qed.

Lemma id_rows_same (l1 l2 : list user) :
  public_part <$> l1 = public_part <$> l2 -> id_row <$> l1 = id_row <$> l2.
Proof.
  revert l2. induction l1 as [|u1 l1 IH]; intros [|u2 l2]; try discriminate;
    [reflexivity|].
  intros [= Hid Hname Hrest]. simpl. unfold id_row at 1 3.
  rewrite Hid. f_equal. apply IH, Hrest.
Qed.

Lemma select_user_found (param : value) (d : database) (row : value) :
  select_user sql_eq param d = Some row ->
  exists u, In u (users d) /\ sql_eq (user_id u) param = true
            /\ row = user_row u.
Proof.
  unfold select_user.
  destruct (find _ _) as [u|] eqn:Hfind; [|discriminate].
  intros [= <-]. apply find_some in Hfind as [Hin Heq]. eauto.
Qed.

Lemma select_user_none (param : value) (d : database) :
  select_user sql_eq param d = None ->
  forall u, In u (users d) -> sql_eq (user_id u) param = false.
Proof.
  unfold select_user.
  destruct (find _ _) as [u|] eqn:Hfind; [discriminate|].
  intros _ u Hin. exact (find_none _ _ Hfind u Hin).
Qed.

End RouteFacts.

(** Identifiers that [validateUserId] does turn away, before any call on
    the store: absent, [null], empty, not numeric, numeric with trailing
    text, zero, [false], a plain object. *)
Lemma ids_rejected_before_the_store (sql_eq : Z -> value -> bool)
    (fault : option string) (d : database) :
  Forall (fun o : gmap string value =>
            route_user sql_eq fault d (Request o)
            = {| store := d; calls := [];
                 reply := Normal (Json 400 (error_payload "Invalid ID")) |})
         [ ∅;
           {[ "id" := VNull ]};
           {[ "id" := VString EmptyString ]};
           {[ "id" := VString "abc" ]};
           {[ "id" := VString "3abc" ]};
           {[ "id" := VString "1 OR 1=1" ]};
           {[ "id" := VNumber (Zero false) ]};
           {[ "id" := VBool false ]};
           {[ "id" := VObject ∅ ]} ].
Proof. repeat constructor. Qed.

Example positive_integer_identifier_examples :
  positive_integer_identifier (VString "3") = true
  /\ positive_integer_identifier (VNumber (Finite false 7 0)) = true
  /\ positive_integer_identifier (VNumber (Finite false 35 (-1))) = false
  /\ positive_integer_identifier (VString "0") = false.
Proof. repeat split. Qed.

Example isNaN_examples :
  isNaN (VString "3abc") = Normal true
  /\ isNaN (VString "1e5") = Normal false
  /\ isNaN (VArray []) = Normal false
  /\ isNaN (VArray [VNumber (Finite false 15 (-1))]) = Normal false
  /\ isNaN (VArray [VNumber (Finite false 1 0); VNumber (Finite false 2 0)])
     = Normal true
  /\ isNaN (VObject ∅) = Normal true.
Proof. repeat split. Qed.

Example Number_toString_examples :
  Number_toString <$> [Finite false 15 (-1); Finite true 1 21;
                       Finite false 1 (-7); Finite false 1200 (-1)]
  = ["1.5"; "-1e+21"; "1e-7"; "120"].
Proof. reflexivity. Qed.

(** ** The claims *)

(** C1. For every non-empty string submitted as the content of a comment,
    [sanitizeComment] passes the request on with the content replaced by
    the sanitizer's output; that output is the value bound in the INSERT,
    it is the content of the row the comments table gains when the store
    accepts the insert, and it contains no unescaped [&], [<], [>] or
    double quote: every [&] in it begins one of the four escape
    sequences. *)
Theorem stored_comment_is_sanitizer_output (fault : option string)
    (d : database) (req : request) (s : string) :
  body req !! "content" = Some (VString s) -> s <> EmptyString ->
  sanitizeComment req
  = Next {| body := <[ "content" := VString (sanitize s) ]> (body req) |}
  /\ calls (route_comment fault d req)
     = [DbRun "INSERT INTO comments (content) VALUES (?)" [VString (sanitize s)]]
  /\ comments (store (route_comment None d req))
     = comments d ++ [Comment (comments_seq d + 1) (VString (sanitize s))]
  /\ well_escaped (sanitize s) = true.
Proof.
  intros Hget Hs.
  pose proof (sanitizeComment_string req s Hget Hs) as Hnext.
  split; [exact Hnext|].
  unfold route_comment. rewrite Hnext. simpl. rewrite Get_insert.
  auto using well_escaped_sanitize.
Qed.

Lemma stored_comment_is_sanitizer_output_witness :
  let req := Request {[ "content" := VString "<b>hi</b>" ]} in
  let d := Database [] [] 0 in
  comments (store (route_comment None d req))
  = [Comment 1 (VString "&lt;b&gt;hi&lt;/b&gt;")]
  /\ well_escaped "&lt;b&gt;hi&lt;/b&gt;" = true.
Proof.
  intros req d.
  destruct (stored_comment_is_sanitizer_output None d req "<b>hi</b>")
    as (_ & _ & Hstore & Hesc); [reflexivity|discriminate|].
  split; [exact Hstore|exact Hesc].
Defined.

(** C2. The chain of four replacements, with [&] first, comes to escaping
    each character of the input exactly once: no [&] brought in by an
    escape sequence is escaped again.  In particular [&<] becomes
    [&amp;&lt;], and the injection example of the specification becomes
    its escaped form. *)
Theorem sanitize_escapes_each_character_once :
  (forall s : string, sanitize s = escape_each s)
  /\ sanitize "&<" = "&amp;&lt;"
  /\ sanitize ("<script>alert(" +:+ String dquote ("x" +:+ String dquote ")</script>"))
     = "&lt;script&gt;alert(&quot;x&quot;)&lt;/script&gt;".
Proof.
  split; [exact sanitize_escape_each|]. split; reflexivity.
Qed.

(** C3, as the code has it.  Every numeric identifier input other than the
    number zero (a Number that is not [0] or [-0], or a string that spells
    a decimal numeral) is accepted by [validateUserId], which passes the
    request on as it came; the lookup then binds that very value. *)
Theorem nonzero_numeric_id_is_forwarded (sql_eq : Z -> value -> bool)
    (fault : option string) (d : database) (req : request) (v : value) :
  body req !! "id" = Some v -> numeric_input v -> is_zero v = false ->
  validateUserId req = Next req
  /\ calls (route_user sql_eq fault d req)
     = [DbGet "SELECT id, name FROM users WHERE id = ?" [v]].
Proof.
  intros Hget Hnum Hzero.
  assert (validateUserId req = Next req) as Hnext.
  { unfold validateUserId. rewrite (Get_Some _ _ _ Hget).
    destruct v as [| |b|x|s|l|o]; simpl in Hnum; try contradiction.
    - destruct x; try discriminate; [congruence|reflexivity..].
    - simpl. rewrite (decimal_numeral_nonempty _ Hnum).
      rewrite (decimal_numeral_literal _ Hnum). reflexivity. }
  split; [exact Hnext|].
  unfold route_user. rewrite Hnext. simpl.
  rewrite (Get_Some _ _ _ Hget). reflexivity.
Qed.

Lemma nonzero_numeric_id_is_forwarded_witness :
  let req := Request {[ "id" := VString "3" ]} in
  validateUserId req = Next req
  /\ calls (route_user integer_key_eq None (Database [] [] 0) req)
     = [DbGet "SELECT id, name FROM users WHERE id = ?" [VString "3"]].
Proof.
  intros req.
  apply (nonzero_numeric_id_is_forwarded integer_key_eq None
           (Database [] [] 0) req (VString "3")).
  - reflexivity.
  - exact (numeral_integer false "3" eq_refl).
  - reflexivity.
Defined.

(** C3, as the specification states it, fails at the number [0]: it is a
    numeric input, and the guard [!id] answers it with "Invalid ID". *)
Lemma number_zero_id_is_rejected :
  let req := Request {[ "id" := VNumber (Zero false) ]} in
  numeric_input (VNumber (Zero false))
  /\ validateUserId req = Respond (Json 400 (error_payload "Invalid ID"))
  /\ calls (route_user integer_key_eq None (Database [] [] 0) req) = [].
Proof. repeat split. discriminate. Qed.

(** C4.  The string made of one space spells no number and [true] is no
    number, yet [validateUserId] passes both on, because [isNaN] coerces
    them to [0] and [1], and the lookup is issued with them. *)
Theorem blank_and_boolean_ids_reach_the_store (sql_eq : Z -> value -> bool)
    (fault : option string) (d : database) :
  let blank := Request {[ "id" := VString " " ]} in
  let boolean := Request {[ "id" := VBool true ]} in
  ~ numeric_input (VString " ")
  /\ validateUserId blank = Next blank
  /\ calls (route_user sql_eq fault d blank)
     = [DbGet "SELECT id, name FROM users WHERE id = ?" [VString " "]]
  /\ ~ numeric_input (VBool true)
  /\ validateUserId boolean = Next boolean
  /\ calls (route_user sql_eq fault d boolean)
     = [DbGet "SELECT id, name FROM users WHERE id = ?" [VBool true]].
Proof.
  intros blank boolean. split; [|repeat split; intros []].
  simpl. inversion 1 as [minus int Hint Heq|minus int frac Hint _ Heq];
    apply digits1_cons in Hint as (c & r & -> & Hc & _);
    destruct minus; try discriminate Heq;
    injection Heq as -> _; discriminate Hc.
Qed.

(** C5. A comment whose content is absent, [null] or the empty string is
    answered by [sanitizeComment] with status 400 and the reason
    "Comment cannot be empty"; the route makes no call on the store and
    leaves it as it was. *)
Theorem empty_comment_is_rejected (fault : option string) (d : database)
    (req : request) :
  empty_or_absent (body req) "content" ->
  sanitizeComment req
  = Respond (Json 400 (error_payload "Comment cannot be empty"))
  /\ route_comment fault d req
     = {| store := d; calls := [];
          reply := Normal (Json 400 (error_payload "Comment cannot be empty")) |}.
Proof.
  intros Hempty.
  assert (sanitizeComment req
          = Respond (Json 400 (error_payload "Comment cannot be empty")))
    as Hreject.
  { unfold sanitizeComment, Get.
    destruct Hempty as [-> | [-> | ->]]; reflexivity. }
  split; [exact Hreject|]. apply route_comment_rejected, Hreject.
Qed.

Lemma empty_comment_is_rejected_witness :
  let d := Database [] [Comment 1 (VString "hi")] 1 in
  route_comment None d (Request {[ "content" := VString EmptyString ]})
  = {| store := d; calls := [];
       reply := Normal (Json 400 (error_payload "Comment cannot be empty")) |}.
Proof.
  intros d.
  apply (empty_comment_is_rejected None d
           (Request {[ "content" := VString EmptyString ]})).
  right. right. reflexivity.
Defined.




(** C7.  Neither validator is total: a Number as content makes
    [sanitizeComment] call a [replace] method that does not exist, and an
    object with a [toString] property makes [isNaN], in [validateUserId],
    fail to convert it.  Both end in a TypeError, which is neither
    [next()] nor the 400 answer. *)
Theorem validators_throw_on_unexpected_types (sql_eq : Z -> value -> bool)
    (fault : option string) (d : database) :
  let number := Request {[ "content" := VNumber (Finite false 5 0) ]} in
  let object :=
    Request {[ "id" := VObject {[ "toString" := VNumber (Zero false) ]} ]} in
  sanitizeComment number = Raise TypeError
  /\ route_comment fault d number
     = {| store := d; calls := []; reply := Throw TypeError |}
  /\ validateUserId object = Raise TypeError
  /\ route_user sql_eq fault d object
     = {| store := d; calls := []; reply := Throw TypeError |}.
Proof. repeat split. Qed.

(** C8. When [validateUserId] lets a request through and the store
    answers the query, the lookup replies with a JSON array of at most
    one element: the row (id and name) of the user the store matches with
    the submitted identifier if there is one, and the empty array if
    there is none. *)
Theorem lookup_returns_at_most_one_record (sql_eq : Z -> value -> bool)
    (d : database) (req req' : request) :
  validateUserId req = Next req' ->
  exists rows : list value,
    reply (route_user sql_eq None d req) = Normal (Json 200 (VArray rows))
    /\ (length rows <= 1)%nat
    /\ ((exists u, In u (users d)
                   /\ sql_eq (user_id u) (Get (body req) "id") = true
                   /\ rows = [user_row u])
        \/ (rows = []
            /\ forall u, In u (users d) ->
                         sql_eq (user_id u) (Get (body req) "id") = false)).
Proof.
  intros Hnext.
  pose proof (validateUserId_Next req req' Hnext) as ->.
  unfold route_user. rewrite Hnext. simpl.
  destruct (select_user sql_eq (Get (body req) "id") d) as [row|] eqn:Hsel.
  - exists [row]. repeat split; [simpl; lia|]. left.
    apply select_user_found in Hsel as (u & Hin & Heq & ->). eauto.
  - exists []. repeat split; [simpl; lia|]. right.
    split; [reflexivity|]. eapply select_user_none, Hsel.
Qed.

Lemma lookup_returns_at_most_one_record_witness :
  let d := Database [User 1 "Ann" "x"; User 2 "Bob" "y"] [] 0 in
  let req := Request {[ "id" := VString "2" ]} in
  exists rows : list value,
    reply (route_user integer_key_eq None d req) = Normal (Json 200 (VArray rows))
    /\ (length rows <= 1)%nat
    /\ ((exists u, In u (users d)
                   /\ integer_key_eq (user_id u) (Get (body req) "id") = true
                   /\ rows = [user_row u])
        \/ (rows = []
            /\ forall u, In u (users d) ->
                         integer_key_eq (user_id u) (Get (body req) "id") = false)).
Proof.
  intros d req.
  apply (lookup_returns_at_most_one_record integer_key_eq d req req).
  reflexivity.
Defined.

(** C9. No response depends on a stored password: on two stores that
    differ at most in the passwords of their users, each operation (user
    listing, identifier lookup, comment creation, comment listing) sends
    the same response, and leaves two stores that again differ at most in
    passwords. *)
Theorem responses_do_not_depend_on_passwords (sql_eq : Z -> value -> bool)
    (op : operation) (fault : option string) (d1 d2 : database) :
  same_but_passwords d1 d2 ->
  reply (handle sql_eq op fault d1) = reply (handle sql_eq op fault d2)
  /\ same_but_passwords (store (handle sql_eq op fault d1))
                        (store (handle sql_eq op fault d2)).
Proof.
  intros (Husers & Hcomments & Hseq).
  assert (same_but_passwords d1 d2) as Hsame by (repeat split; assumption).
  destruct op as [|req|req|]; simpl.
  - split; [|exact Hsame]. rewrite (id_rows_same _ _ Husers). reflexivity.
  - unfold route_user. destruct (validateUserId req); simpl; auto.
    rewrite (select_user_same sql_eq _ d1 d2 Husers). auto.
  - unfold route_comment. destruct (sanitizeComment req); simpl; auto.
    split; [reflexivity|]. destruct fault; [exact Hsame|].
    unfold same_but_passwords, insert_comment. simpl.
    rewrite Hcomments, Hseq. auto.
  - split; [|exact Hsame]. rewrite Hcomments. reflexivity.
Qed.

Lemma responses_do_not_depend_on_passwords_witness :
  let d1 := Database [User 1 "Ann" "$2b$10$abc"] [] 0 in
  let d2 := Database [User 1 "Ann" "$2b$10$xyz"] [] 0 in
  let op := POST_user (Request {[ "id" := VNumber (Finite false 1 0) ]}) in
  reply (handle integer_key_eq op None d1) = reply (handle integer_key_eq op None d2)
  /\ same_but_passwords (store (handle integer_key_eq op None d1))
                        (store (handle integer_key_eq op None d2)).
Proof.
  intros d1 d2 op.
  apply (responses_do_not_depend_on_passwords integer_key_eq op None d1 d2).
  repeat split.
Defined.

(** C10. The strings [-5], [3.5], [0x1A], [Infinity] and [ 3 ] (with a
    space on either side) are not positive-integer identifiers, yet
    [validateUserId] passes each of them on and the lookup is issued with
    it. *)
Theorem accepted_ids_need_not_be_positive_integers
    (sql_eq : Z -> value -> bool) (fault : option string) (d : database) :
  Forall (fun s : string =>
            let req := Request {[ "id" := VString s ]} in
            positive_integer_identifier (VString s) = false
            /\ validateUserId req = Next req
            /\ calls (route_user sql_eq fault d req)
               = [DbGet "SELECT id, name FROM users WHERE id = ?" [VString s]])
         ["-5"; "3.5"; "0x1A"; "Infinity"; " 3 "].
Proof. repeat constructor. Qed.


(** ** Further properties of the sanitizer *)

Lemma app_assoc (s t u : string) : (s +:+ t) +:+ u = s +:+ t +:+ u.
Proof.
  induction s as [|c s IH]; [reflexivity|].
  rewrite !app_cons, IH. reflexivity.
Qed.

Lemma escape_each_app (s t : string) :
  escape_each (s +:+ t) = escape_each s +:+ escape_each t.
Proof.
  induction s as [|c s IH]; [reflexivity|].
  rewrite app_cons. simpl. rewrite IH, app_assoc. reflexivity.
Qed.

Lemma escape_char_cases (c : ascii) :
  (is_markup c = true
   /\ exists t, escape_char c = String "&" t /\ t <> EmptyString)
  \/ (is_markup c = false /\ escape_char c = String c EmptyString
      /\ c <> "&"%char).
Proof.
  each_ascii c;
    first [ right; repeat split; discriminate
          | left; split; [reflexivity|]; eexists; split;
            [reflexivity|discriminate] ].
Qed.

Lemma escape_char_app_inj (c1 c2 : ascii) (t1 t2 : string) :
  escape_char c1 +:+ t1 = escape_char c2 +:+ t2 -> c1 = c2 /\ t1 = t2.
Proof.
  unfold escape_char.
  repeat match goal with
         | |- context [Ascii.eqb ?a ?b] =>
             destruct (Ascii.eqb_spec a b); subst
         end;
    rewrite ?app_cons, ?app_nil_l; intros H; injection H as H;
    subst; try discriminate; try congruence; auto.
Qed.

Lemma escape_each_inj (s t : string) : escape_each s = escape_each t -> s = t.
Proof.
  revert t. induction s as [|c s IH]; intros [|c' t]; simpl.
  - reflexivity.
  - intros H. apply (f_equal String.length) in H. rewrite length_app in H.
    pose proof (length_escape_char c') as (_ & Hpos & _). simpl in H. lia.
  - intros H. apply (f_equal String.length) in H. rewrite length_app in H.
    pose proof (length_escape_char c) as (_ & Hpos & _). simpl in H. lia.
  - intros [-> Hrest]%escape_char_app_inj. f_equal. apply IH, Hrest.
Qed.

Lemma length_escape_char_exact (c : ascii) :
  String.length (escape_char c)
  = (1 + 4 * (if Ascii.eqb c "&" then 1 else 0)
       + 3 * (if Ascii.eqb c "<" then 1 else 0)
       + 3 * (if Ascii.eqb c ">" then 1 else 0)
       + 5 * (if Ascii.eqb c dquote then 1 else 0))%nat.
Proof. each_ascii c; reflexivity. Qed.

(** X1. Sanitizing a concatenation is concatenating the sanitized parts:
    the replacement works character by character, so what a comment
    becomes does not depend on what surrounds it. *)
Theorem sanitize_concatenation (s t : string) :
  sanitize (s +:+ t) = sanitize s +:+ sanitize t.
Proof. rewrite !sanitize_escape_each. apply escape_each_app. Qed.

(** X2. Sanitizing loses nothing: two different comments are never stored
    as the same text. *)
Theorem sanitize_injective (s t : string) :
  sanitize s = sanitize t -> s = t.
Proof. rewrite !sanitize_escape_each. apply escape_each_inj. Qed.

Lemma sanitize_injective_witness :
  String "<" (String dquote "a") = String "<" (String dquote "a").
Proof. apply sanitize_injective. reflexivity. Defined.

(** X3. The length of the sanitized text: each [&] adds four characters,
    each [<] and [>] three, each double quote five, and nothing else
    changes. *)
Theorem sanitize_length (s : string) :
  String.length (sanitize s)
  = (String.length s + 4 * count_char "&" s + 3 * count_char "<" s
     + 3 * count_char ">" s + 5 * count_char dquote s)%nat.
Proof.
  rewrite sanitize_escape_each.
  induction s as [|c s IH]; [reflexivity|].
  simpl escape_each. rewrite length_app, IH, length_escape_char_exact.
  simpl. lia.
Qed.

(** X4. Sanitizing twice gives the same text as sanitizing once only for
    a text without any of the four characters: in every other case the
    second pass escapes the [&] of the first. *)
Theorem sanitize_twice_differs (s : string) :
  no_markup s = false -> sanitize (sanitize s) <> sanitize s.
Proof.
  intros Hs Heq. rewrite !sanitize_escape_each in Heq.
  apply escape_each_inj, escape_each_fixed in Heq. congruence.
Qed.

Lemma sanitize_twice_differs_witness :
  sanitize (sanitize "a & b") <> sanitize "a & b".
Proof. apply sanitize_twice_differs. reflexivity. Defined.

(** ** What [validateUserId] lets through *)

Lemma all_chars_app (p : ascii -> bool) (s t : string) :
  all_chars p (s +:+ t) = all_chars p s && all_chars p t.
Proof.
  induction s as [|c s IH]; [reflexivity|].
  rewrite app_cons. simpl. rewrite IH, andb_assoc. reflexivity.
Qed.


Lemma all_chars_drop_while (p q : ascii -> bool) (s : string) :
  (forall c, p c = true -> q c = true) ->
  all_chars q (drop_while p s) = true -> all_chars q s = true.
Proof.
  intros Hpq. induction s as [|c s IH]; [reflexivity|].
  simpl. destruct (p c) eqn:Hc; [|exact id].
  intros H. rewrite (Hpq c Hc). exact (IH H).
Qed.

Lemma high_alphabet (c : ascii) :
  (128 <=? code c)%N = true -> numeric_alphabet c = true.
Proof. unfold numeric_alphabet. intros ->. apply orb_true_r. Qed.

Lemma ws1_alphabet (c : ascii) : ws1 c = true -> numeric_alphabet c = true.
Proof.
  unfold numeric_alphabet. intros ->. rewrite orb_true_r. reflexivity.
Qed.

Lemma hex_alphabet (c : ascii) :
  is_hex_digit c = true -> numeric_alphabet c = true.
Proof. unfold numeric_alphabet. intros ->. reflexivity. Qed.

Lemma digit_alphabet (c : ascii) : is_digit c = true -> numeric_alphabet c = true.
Proof. intros H. apply hex_alphabet. unfold is_hex_digit. rewrite H. reflexivity. Qed.

Lemma octal_alphabet (c : ascii) :
  is_octal_digit c = true -> numeric_alphabet c = true.
Proof. each_ascii c; try discriminate; reflexivity. Qed.

Lemma binary_alphabet (c : ascii) :
  is_binary_digit c = true -> numeric_alphabet c = true.
Proof. each_ascii c; try discriminate; reflexivity. Qed.

Lemma sign_alphabet (c : ascii) : is_sign c = true -> numeric_alphabet c = true.
Proof. each_ascii c; try discriminate; reflexivity. Qed.

Lemma ws2_alphabet (c1 c2 : ascii) :
  ws2 c1 c2 = true -> numeric_alphabet c1 = true /\ numeric_alphabet c2 = true.
Proof.
  unfold ws2. intros [->%Ascii.eqb_eq ->%Ascii.eqb_eq]%andb_true_iff.
  split; reflexivity.
Qed.

Lemma ws3_alphabet (c1 c2 c3 : ascii) :
  ws3 c1 c2 c3 = true ->
  numeric_alphabet c1 = true /\ numeric_alphabet c2 = true
  /\ numeric_alphabet c3 = true.
Proof.
  unfold ws3. rewrite !orb_true_iff, !andb_true_iff, !orb_true_iff.
  intros H.
  assert (forall c, between "128" "138" c = true -> numeric_alphabet c = true)
    as Hrange.
  { intros c [Hlo _]%andb_true_iff. apply high_alphabet, Hlo. }
  destruct_or!; destruct_and!; destruct_or?;
    repeat match goal with
           | E : Ascii.eqb _ _ = true |- _ => apply Ascii.eqb_eq in E; subst
           end;
    repeat split; auto.
Qed.

Lemma trim_start_alphabet (s : string) :
  all_chars numeric_alphabet (trim_start s) = true ->
  all_chars numeric_alphabet s = true.
Proof.
  remember (String.length s) as n eqn:Hn.
  revert s Hn. induction (lt_wf n) as [n _ IH]. intros s ->.
  destruct s as [|c1 r1]; [reflexivity|].
  simpl trim_start. destruct (ws1 c1) eqn:H1.
  { intros H. simpl. rewrite (ws1_alphabet _ H1).
    apply (IH (String.length r1)); [simpl; lia|reflexivity|exact H]. }
  destruct r1 as [|c2 r2]; [exact id|].
  destruct (ws2 c1 c2) eqn:H2.
  { intros H. apply ws2_alphabet in H2 as [Ha Hb].
    simpl. rewrite Ha, Hb.
    apply (IH (String.length r2)); [simpl; lia|reflexivity|exact H]. }
  destruct r2 as [|c3 r3]; [exact id|].
  destruct (ws3 c1 c2 c3) eqn:H3; [|exact id].
  intros H. apply ws3_alphabet in H3 as (Ha & Hb & Hc). simpl.
  rewrite Ha, Hb, Hc.
  apply (IH (String.length r3)); [simpl; lia|reflexivity|exact H].
Qed.

Lemma white_space_alphabet (r : string) :
  StrWhiteSpace_opt r = true -> all_chars numeric_alphabet r = true.
Proof.
  unfold StrWhiteSpace_opt. intros H. apply trim_start_alphabet.
  destruct (trim_start r); [reflexivity|discriminate].
Qed.

Lemma digits_then_white_space_alphabet (p : ascii -> bool) (r : string) :
  (forall c, p c = true -> numeric_alphabet c = true) ->
  StrWhiteSpace_opt (drop_while p r) = true ->
  all_chars numeric_alphabet r = true.
Proof.
  intros Hp H. apply (all_chars_drop_while p); [exact Hp|].
  apply white_space_alphabet, H.
Qed.

Lemma ExponentPart_alphabet (s : string) :
  ExponentPart_opt s = true -> all_chars numeric_alphabet s = true.
Proof.
  destruct s as [|c r]; [reflexivity|]. unfold ExponentPart_opt.
  destruct (Ascii.eqb c "e" || Ascii.eqb c "E") eqn:He;
    [|apply white_space_alphabet].
  assert (numeric_alphabet c = true) as Hc.
  { apply orb_true_iff in He as [->%Ascii.eqb_eq| ->%Ascii.eqb_eq];
      reflexivity. }
  intros [_ H]%andb_true_iff. simpl. rewrite Hc. simpl.
  destruct r as [|sg r'];
    [exact (digits_then_white_space_alphabet _ _ digit_alphabet H)|].
  destruct (is_sign sg) eqn:Hsg.
  - simpl. rewrite (sign_alphabet _ Hsg).
    exact (digits_then_white_space_alphabet _ _ digit_alphabet H).
  - exact (digits_then_white_space_alphabet _ _ digit_alphabet H).
Qed.

Lemma strip_prefix_Some (p s r : string) :
  strip_prefix p s = Some r -> s = p +:+ r.
Proof.
  revert s. induction p as [|a p IH]; intros s; simpl.
  - intros [= ->]. reflexivity.
  - destruct s as [|b s]; [discriminate|].
    destruct (Ascii.eqb_spec a b) as [->|]; [|discriminate].
    intros H. rewrite app_cons, <- (IH _ H). reflexivity.
Qed.

Lemma StrUnsignedDecimalLiteral_unfold (s : string) :
  strip_prefix "Infinity" s = None ->
  StrUnsignedDecimalLiteral s
  = match drop_while is_digit s with
    | String c fraction =>
        if Ascii.eqb c "." then
          (head_is is_digit s || head_is is_digit fraction)
          && ExponentPart_opt (drop_while is_digit fraction)
        else head_is is_digit s && ExponentPart_opt (String c fraction)
    | EmptyString => head_is is_digit s && ExponentPart_opt EmptyString
    end.
Proof.
  intros H. unfold StrUnsignedDecimalLiteral. rewrite H.
  destruct (drop_while is_digit s) as [|c fraction]; [reflexivity|].
  each_ascii c; reflexivity.
Qed.

Lemma StrUnsignedDecimalLiteral_alphabet (s : string) :
  StrUnsignedDecimalLiteral s = true -> all_chars numeric_alphabet s = true.
Proof.
  destruct (strip_prefix "Infinity" s) as [r|] eqn:Hinf.
  - unfold StrUnsignedDecimalLiteral. rewrite Hinf. intros H.
    rewrite (strip_prefix_Some _ _ _ Hinf), all_chars_app.
    rewrite (white_space_alphabet _ H). reflexivity.
  - rewrite (StrUnsignedDecimalLiteral_unfold _ Hinf). intros H.
    apply (all_chars_drop_while is_digit); [exact digit_alphabet|].
    destruct (drop_while is_digit s) as [|c fraction]; [reflexivity|].
    destruct (Ascii.eqb_spec c ".") as [->|_].
    + apply andb_true_iff in H as [_ H]. simpl.
      apply (all_chars_drop_while is_digit); [exact digit_alphabet|].
      apply ExponentPart_alphabet, H.
    + apply andb_true_iff in H as [_ H]. apply ExponentPart_alphabet, H.
Qed.

Lemma StrDecimalLiteral_alphabet (s : string) :
  StrDecimalLiteral s = true -> all_chars numeric_alphabet s = true.
Proof.
  destruct s as [|c r]; [reflexivity|]. unfold StrDecimalLiteral.
  destruct (is_sign c) eqn:Hc; [|apply StrUnsignedDecimalLiteral_alphabet].
  intros H. simpl. rewrite (sign_alphabet _ Hc).
  apply StrUnsignedDecimalLiteral_alphabet, H.
Qed.

Lemma NonDecimalIntegerLiteral_unfold (x : ascii) (r : string) :
  NonDecimalIntegerLiteral (String "0" (String x r))
  = if Ascii.eqb x "x" || Ascii.eqb x "X" then
      head_is is_hex_digit r && StrWhiteSpace_opt (drop_while is_hex_digit r)
    else if Ascii.eqb x "o" || Ascii.eqb x "O" then
      head_is is_octal_digit r && StrWhiteSpace_opt (drop_while is_octal_digit r)
    else if Ascii.eqb x "b" || Ascii.eqb x "B" then
      head_is is_binary_digit r && StrWhiteSpace_opt (drop_while is_binary_digit r)
    else false.
Proof. reflexivity. Qed.

Lemma NonDecimalIntegerLiteral_alphabet (s : string) :
  NonDecimalIntegerLiteral s = true -> all_chars numeric_alphabet s = true.
Proof.
  destruct s as [|c0 [|x r]]; [reflexivity| |].
  - each_ascii c0; discriminate.
  - intros H.
    assert (c0 = "0"%char) as ->
      by (each_ascii c0; first [reflexivity|discriminate H]).
    rewrite NonDecimalIntegerLiteral_unfold in H.
    assert (forall a b, Ascii.eqb x a || Ascii.eqb x b = true ->
                        numeric_alphabet a = true -> numeric_alphabet b = true ->
                        numeric_alphabet x = true) as Hx.
    { intros a b [->%Ascii.eqb_eq| ->%Ascii.eqb_eq]%orb_true_iff; auto. }
    simpl.
    repeat match type of H with
           | (if ?b then _ else _) = true =>
               let E := fresh "E" in
               destruct b eqn:E;
               [ rewrite (Hx _ _ E eq_refl eq_refl);
                 apply andb_true_iff in H as [_ H] | ]
           end; [..|discriminate].
    + exact (digits_then_white_space_alphabet _ _ hex_alphabet H).
    + exact (digits_then_white_space_alphabet _ _ octal_alphabet H).
    + exact (digits_then_white_space_alphabet _ _ binary_alphabet H).
Qed.

Lemma StringNumericLiteral_alphabet (s : string) :
  StringNumericLiteral s = true -> all_chars numeric_alphabet s = true.
Proof.
  unfold StringNumericLiteral. intros H. apply trim_start_alphabet.
  apply orb_true_iff in H as [[H|H]%orb_true_iff|H].
  - destruct (trim_start s); [reflexivity|discriminate].
  - apply StrDecimalLiteral_alphabet, H.
  - apply NonDecimalIntegerLiteral_alphabet, H.
Qed.




Lemma ToString_array_two (x y : value) (l : list value) (s : string) :
  ToString (VArray (x :: y :: l)) = Normal s ->
  exists a b, s = a +:+ String "," b.
Proof.
  change (ToString (VArray (x :: y :: l)))
    with (first ← match x with
                  | VUndefined | VNull => Normal EmptyString
                  | _ => ToString x
                  end;
          others ← ToString (VArray (y :: l));
          Normal (first +:+ "," +:+ others)).
  destruct (match x with VUndefined | VNull => Normal EmptyString | _ => ToString x end)
    as [a|]; [|discriminate].
  destruct (ToString (VArray (y :: l))) as [b|]; [|discriminate].
  intros [= <-]. exists a, b. reflexivity.
Qed.

Lemma comma_not_numeric (a b : string) :
  StringNumericLiteral (a +:+ String "," b) = false.
Proof.
  destruct (StringNumericLiteral _) eqn:H; [|reflexivity].
  apply StringNumericLiteral_alphabet in H.
  rewrite all_chars_app in H. apply andb_true_iff in H as [_ H].
  discriminate H.
Qed.

(** X6. [validateUserId] never lets through an object, nor an array of
    two or more elements: the request is answered with "Invalid ID", or
    the conversion throws, and no lookup is made. *)
Theorem object_and_long_array_ids_never_pass (sql_eq : Z -> value -> bool)
    (fault : option string) (d : database) (req : request) (v : value) :
  body req !! "id" = Some v ->
  match v with
  | VObject _ | VArray (_ :: _ :: _) => True
  | _ => False
  end ->
  (validateUserId req = Respond (Json 400 (error_payload "Invalid ID"))
   \/ validateUserId req = Raise TypeError)
  /\ calls (route_user sql_eq fault d req) = []
  /\ store (route_user sql_eq fault d req) = d.
Proof.
  intros Hget Hv.
  assert (validateUserId req = Respond (Json 400 (error_payload "Invalid ID"))
          \/ validateUserId req = Raise TypeError) as Hout.
  { unfold validateUserId. rewrite (Get_Some _ _ _ Hget).
    destruct v as [| | | | |[|x [|y l]]|o]; try contradiction; simpl negb;
      cbv iota; unfold isNaN.
    - destruct (ToString (VArray (x :: y :: l))) as [s|[]] eqn:Hs;
        [|right; reflexivity].
      apply ToString_array_two in Hs as (a & b & ->).
      left. simpl. rewrite comma_not_numeric. reflexivity.
    - simpl ToString. unfold Object_toString.
      destruct (o !! "toString"); [right|left]; reflexivity. }
  split; [exact Hout|]. unfold route_user.
  destruct Hout as [-> | ->]; split; reflexivity.
Qed.

Lemma object_and_long_array_ids_never_pass_witness :
  let req := Request {[ "id" := VArray [VNumber (Finite false 1 0);
                                        VNumber (Finite false 2 0)] ]} in
  let d := Database [User 1 "Ann" "x"] [] 0 in
  (validateUserId req = Respond (Json 400 (error_payload "Invalid ID"))
   \/ validateUserId req = Raise TypeError)
  /\ calls (route_user integer_key_eq None d req) = []
  /\ store (route_user integer_key_eq None d req) = d.
Proof.
  intros req d.
  apply (object_and_long_array_ids_never_pass integer_key_eq None d req
           (VArray [VNumber (Finite false 1 0); VNumber (Finite false 2 0)]));
    [reflexivity|exact I].
Defined.

(** ** What the routes answer and what they do to the store *)

Lemma validateUserId_Respond (req : request) (r : response) :
  validateUserId req = Respond r -> r = Json 400 (error_payload "Invalid ID").
Proof.
  unfold validateUserId. destruct (negb _); [congruence|].
  destruct (isNaN _) as [[]|]; congruence.
Qed.

Lemma sanitizeComment_Respond (req : request) (r : response) :
  sanitizeComment req = Respond r ->
  r = Json 400 (error_payload "Comment cannot be empty").
Proof.
  unfold sanitizeComment.
  destruct (if negb _ then _ else _) as [[]|]; [congruence| |discriminate].
  destruct (replace_chain _); discriminate.
Qed.

Lemma handle_store_cases (sql_eq : Z -> value -> bool) (op : operation)
    (fault : option string) (d : database) :
  store (handle sql_eq op fault d) = d
  \/ exists req s,
       op = POST_comment req /\ fault = None
       /\ body req !! "content" = Some (VString s) /\ s <> EmptyString
       /\ store (handle sql_eq op fault d)
          = insert_comment (VString (sanitize s)) d.
Proof.
  destruct op as [|req|req|]; simpl; auto.
  - unfold route_user. destruct (validateUserId req); auto.
  - unfold route_comment.
    destruct (sanitizeComment req) as [req'| |] eqn:Hs; auto.
    destruct fault; auto. right.
    apply sanitizeComment_Next in Hs as (s & Hget & Hne & ->).
    exists req, s. simpl. rewrite Get_insert. auto.
Qed.

(** X7. A request leaves [sanitizeComment] for the handler only if its
    content was a non-empty string; the content is then the sanitized
    string and every other property of the body is as submitted. *)
Theorem sanitizeComment_passes_only_text (req req' : request) :
  sanitizeComment req = Next req' ->
  exists s, body req !! "content" = Some (VString s) /\ s <> EmptyString
            /\ body req' !! "content" = Some (VString (sanitize s))
            /\ forall k, k <> "content" -> body req' !! k = body req !! k.
Proof.
  intros (s & Hget & Hne & ->)%sanitizeComment_Next.
  exists s. simpl. rewrite lookup_insert_eq. repeat split; auto.
  intros k Hk. apply lookup_insert_ne. congruence.
Qed.

Lemma sanitizeComment_passes_only_text_witness :
  let req := Request {[ "content" := VString "a<b"; "author" := VString "<me>" ]} in
  let req' := Request {[ "content" := VString "a&lt;b"; "author" := VString "<me>" ]} in
  exists s, body req !! "content" = Some (VString s) /\ s <> EmptyString
            /\ body req' !! "content" = Some (VString (sanitize s))
            /\ forall k, k <> "content" -> body req' !! k = body req !! k.
Proof.
  intros req req'.
  apply (sanitizeComment_passes_only_text req req'). reflexivity.
Defined.

(** X8. What a route answers.  Status 200 comes with exactly one call on
    the store, which succeeded; status 400 comes before any call and
    leaves the store alone; status 500 comes only when the one call made
    failed, and the store is then unchanged.  When a middleware throws, no
    call has been made and the store is unchanged. *)
Theorem reply_status_cases (sql_eq : Z -> value -> bool) (op : operation)
    (fault : option string) (d : database) :
  let o := handle sql_eq op fault d in
  match reply o with
  | Normal r =>
      (response_status r = 200%nat /\ fault = None /\ length (calls o) = 1%nat)
      \/ (response_status r = 400%nat /\ calls o = [] /\ store o = d)
      \/ (response_status r = 500%nat /\ fault <> None
          /\ length (calls o) = 1%nat /\ store o = d)
  | Throw _ => calls o = [] /\ store o = d
  end.
Proof.
  destruct op as [|req|req|]; simpl.
  - destruct fault; simpl; [right; right|left]; auto.
  - unfold route_user. destruct (validateUserId req) as [req'|r|e] eqn:Hv;
      simpl; auto.
    + destruct fault; simpl; [right; right|left]; auto.
    + rewrite (validateUserId_Respond _ _ Hv). simpl. auto.
  - unfold route_comment. destruct (sanitizeComment req) as [req'|r|e] eqn:Hs;
      simpl; auto.
    + destruct fault; simpl; [right; right|left]; auto.
    + rewrite (sanitizeComment_Respond _ _ Hs). simpl. auto.
  - destruct fault; simpl; [right; right|left]; auto.
Qed.



(** ** The comment listing *)

Lemma insert_by_id_desc_perm (c : comment) (l : list comment) :
  Permutation (insert_by_id_desc c l) (c :: l).
Proof.
  induction l as [|x l IH]; simpl; [reflexivity|].
  destruct (comment_id x <? comment_id c); [reflexivity|].
  rewrite IH. apply perm_swap.
Qed.

Lemma insert_by_id_desc_sorted (c : comment) (l : list comment) :
  newest_first l -> newest_first (insert_by_id_desc c l).
Proof.
  unfold newest_first. induction 1 as [|x l Hl IH Hx]; simpl.
  - repeat constructor.
  - destruct (comment_id x <? comment_id c) eqn:Hlt.
    + apply Z.ltb_lt in Hlt. constructor; [constructor; assumption|].
      constructor; [lia|].
      eapply Forall_impl; [exact Hx|]. simpl. intros y Hy. lia.
    + apply Z.ltb_ge in Hlt. constructor; [exact IH|].
      rewrite (insert_by_id_desc_perm c l). constructor; assumption.
Qed.

Lemma insert_by_id_desc_oldest (c : comment) (l : list comment) :
  Forall (fun y => comment_id c < comment_id y) l ->
  insert_by_id_desc c l = l ++ [c].
Proof.
  induction 1 as [|y l Hy _ IH]; simpl; [reflexivity|].
  destruct (comment_id y <? comment_id c) eqn:Hlt;
    [apply Z.ltb_lt in Hlt; lia|].
  rewrite IH. reflexivity.
Qed.

Lemma order_by_id_desc_rev (l : list comment) :
  StronglySorted Z.lt (comment_id <$> l) -> order_by_id_desc l = rev l.
Proof.
  induction l as [|c l IH]; [reflexivity|].
  simpl. intros H. apply StronglySorted_inv in H as [Hl Hc].
  unfold order_by_id_desc in *. simpl. rewrite (IH Hl).
  apply insert_by_id_desc_oldest.
  rewrite Forall_fmap in Hc. apply Forall_rev.
  eapply Forall_impl; [exact Hc|]. simpl. auto.
Qed.

Lemma StronglySorted_snoc (l : list Z) (x : Z) :
  StronglySorted Z.lt l -> Forall (fun y => y < x) l ->
  StronglySorted Z.lt (l ++ [x]).
Proof.
  induction 1 as [|y l Hl IH Hy]; simpl; intros Hx.
  - repeat constructor.
  - apply Forall_cons in Hx as [Hyx Hx].
    constructor; [exact (IH Hx)|].
    apply Forall_app. split; [exact Hy|]. repeat constructor. exact Hyx.
Qed.

Lemma insert_comment_ordered (content : value) (d : database) :
  comments_ordered d -> comments_ordered (insert_comment content d).
Proof.
  intros [Hsorted Hbound]. unfold comments_ordered, insert_comment. simpl.
  split.
  - rewrite fmap_app. simpl. apply StronglySorted_snoc; [exact Hsorted|].
    apply Forall_fmap. eapply Forall_impl; [exact Hbound|].
    simpl. intros c Hc. lia.
  - apply Forall_app. split.
    + eapply Forall_impl; [exact Hbound|]. simpl. intros c Hc. lia.
    + repeat constructor. simpl. lia.
Qed.

Lemma handle_ordered (sql_eq : Z -> value -> bool) (op : operation)
    (fault : option string) (d : database) :
  comments_ordered d -> comments_ordered (store (handle sql_eq op fault d)).
Proof.
  intros Hd.
  destruct (handle_store_cases sql_eq op fault d)
    as [->|(req & s & _ & _ & _ & _ & ->)]; [exact Hd|].
  apply insert_comment_ordered, Hd.
Qed.

(** X11. ORDER BY id DESC, as modelled for the comment listing, returns
    the rows it is given, each once, with the largest identifier first. *)
Theorem order_by_id_desc_sorts (l : list comment) :
  Permutation (order_by_id_desc l) l /\ newest_first (order_by_id_desc l).
Proof.
  unfold order_by_id_desc. induction l as [|c l [IHp IHs]]; simpl.
  - split; [reflexivity|constructor].
  - split.
    + rewrite insert_by_id_desc_perm, IHp. reflexivity.
    + apply insert_by_id_desc_sorted, IHs.
Qed.

(** X12. The comments table keeps its identifiers increasing and below
    the AUTOINCREMENT counter through every request. *)
Theorem comments_stay_ordered (sql_eq : Z -> value -> bool) (op : operation)
    (fault : option string) (d : database) :
  comments_ordered d -> comments_ordered (store (handle sql_eq op fault d)).
Proof. apply handle_ordered. Qed.

Lemma comments_stay_ordered_witness :
  comments_ordered
    (store (handle integer_key_eq
              (POST_comment (Request {[ "content" := VString "hi" ]})) None
              (Database [] [Comment 1 (VString "a"); Comment 4 (VString "b")] 6))).
Proof.
  apply comments_stay_ordered. split.
  - repeat constructor.
  - repeat constructor; simpl; lia.
Defined.

Lemma route_comments_rev (d : database) :
  comments_ordered d ->
  reply (route_comments None d)
  = Normal (Json 200 (VArray (comment_row <$> rev (comments d)))).
Proof.
  intros [Hsorted _]. unfold route_comments. simpl.
  rewrite (order_by_id_desc_rev _ Hsorted). reflexivity.
Qed.

(** X13. On such a table the comment listing answers with the comments in
    the reverse of the order in which they were inserted: the latest
    comment comes first. *)
Theorem comments_listed_latest_first (d : database) :
  comments_ordered d ->
  reply (route_comments None d)
  = Normal (Json 200 (VArray (comment_row <$> rev (comments d)))).
Proof. apply route_comments_rev. Qed.

Lemma comments_listed_latest_first_witness :
  let d := Database [] [Comment 1 (VString "a"); Comment 2 (VString "b")] 2 in
  reply (route_comments None d)
  = Normal (Json 200 (VArray (comment_row <$> rev (comments d)))).
Proof.
  intros d. apply comments_listed_latest_first. split.
  - repeat constructor.
  - repeat constructor; simpl; lia.
Defined.

(** X14. Submitting a non-empty text and then listing the comments shows
    that text, sanitized, under a fresh identifier at the head of the
    list, followed by the earlier comments, latest first. *)
Theorem posted_comment_heads_the_listing (d : database) (req : request)
    (s : string) :
  comments_ordered d ->
  body req !! "content" = Some (VString s) -> s <> EmptyString ->
  reply (route_comments None (store (route_comment None d req)))
  = Normal (Json 200 (VArray
      (comment_row (Comment (comments_seq d + 1) (VString (sanitize s)))
       :: (comment_row <$> rev (comments d))))).
Proof.
  intros Hd Hget Hne.
  assert (store (route_comment None d req)
          = insert_comment (VString (sanitize s)) d) as ->.
  { unfold route_comment. rewrite (sanitizeComment_string _ _ Hget Hne).
    simpl. rewrite Get_insert. reflexivity. }
  rewrite (route_comments_rev _ (insert_comment_ordered _ d Hd)).
  simpl. rewrite rev_app_distr. reflexivity.
Qed.

Lemma posted_comment_heads_the_listing_witness :
  let d := Database [] [Comment 1 (VString "first")] 1 in
  let req := Request {[ "content" := VString "<i>" ]} in
  reply (route_comments None (store (route_comment None d req)))
  = Normal (Json 200 (VArray
      (comment_row (Comment (comments_seq d + 1) (VString (sanitize "<i>")))
       :: (comment_row <$> rev (comments d))))).
Proof.
  intros d req. apply posted_comment_heads_the_listing.
  - split; repeat constructor. simpl. lia.
  - reflexivity.
  - discriminate.
Defined.

(** ** Sessions *)

Lemma run_cons (sql_eq : Z -> value -> bool) (op : operation)
    (fault : option string) (ops : list (operation * option string))
    (d : database) :
  run sql_eq ((op, fault) :: ops) d
  = run sql_eq ops (store (handle sql_eq op fault d)).
Proof. reflexivity. Qed.

(** X15. Starting from a store without comments, after any sequence of
    requests and whatever the store answered to each: the users are those
    of the start, every stored comment is a string without unescaped
    markup, and the comments carry the identifiers 1, 2, ... in the order
    of their insertion, the counter being their number. *)
Theorem session_invariant (sql_eq : Z -> value -> bool) (us : list user)
    (ops : list (operation * option string)) :
  let d := run sql_eq ops (Database us [] 0) in
  users d = us
  /\ Forall escaped_comment (comments d)
  /\ comment_id <$> comments d = Z.of_nat <$> seq 1 (length (comments d))
  /\ comments_seq d = Z.of_nat (length (comments d)).
Proof.
  simpl.
  assert (forall d,
             users d = us
             /\ Forall escaped_comment (comments d)
             /\ comment_id <$> comments d = Z.of_nat <$> seq 1 (length (comments d))
             /\ comments_seq d = Z.of_nat (length (comments d)) ->
             let d' := run sql_eq ops d in
             users d' = us
             /\ Forall escaped_comment (comments d')
             /\ comment_id <$> comments d' = Z.of_nat <$> seq 1 (length (comments d'))
             /\ comments_seq d' = Z.of_nat (length (comments d'))) as Hrun.
  { induction ops as [|[op fault] ops IH]; intros d Hd; [exact Hd|].
    cbv zeta. rewrite run_cons. apply IH. clear IH.
    destruct Hd as (Hus & Hesc & Hids & Hseq).
    destruct (handle_store_cases sql_eq op fault d)
      as [->|(req & s & _ & _ & _ & _ & ->)]; [auto|].
    unfold insert_comment. simpl. repeat split.
    - exact Hus.
    - apply Forall_app. split; [exact Hesc|].
      apply Forall_cons_2; [|apply Forall_nil_2].
      exists (sanitize s). simpl. auto using well_escaped_sanitize.
    - rewrite fmap_app, List.length_app, Hids, Hseq. simpl length.
      rewrite seq_app, fmap_app. simpl. do 3 f_equal. lia.
    - rewrite List.length_app, Hseq. simpl. lia. }
  apply Hrun. simpl. repeat split. constructor.
Qed.

(** ** The earlier handlers *)

(** X16. Moving the identifier check into the middleware changed nothing:
    on every request, store and store answer, the earlier [/user] handler
    and the route guarded by [validateUserId] make the same calls, leave
    the same store and answer alike. *)
Theorem user_route_refactoring (sql_eq : Z -> value -> bool)
    (fault : option string) (d : database) (req : request) :
  earlier_route_user sql_eq fault d req = route_user sql_eq fault d req.
Proof.
  unfold earlier_route_user, route_user, validateUserId.
  destruct (negb (ToBoolean (Get (body req) "id"))); [reflexivity|].
  destruct (isNaN (Get (body req) "id")) as [[]|]; reflexivity.
Qed.

Lemma emptiness_test_never_throws (v : value) :
  exists b, (if negb (ToBoolean v) then Normal true else length_is_zero v)
            = Normal b.
Proof. destruct v as [| |[]|[]|[]|[]|]; simpl; eauto. Qed.

(** X17. The earlier [/comment] handler answered every request, and
    whenever the route guarded by [sanitizeComment] answers at all, it
    answers what the earlier handler answered; the patched route differs
    in replies only where the middleware throws. *)
Theorem comment_route_replies_agree (fault : option string) (d : database)
    (req : request) :
  (exists r, reply (earlier_route_comment fault d req) = Normal r)
  /\ forall r, reply (route_comment fault d req) = Normal r ->
               reply (earlier_route_comment fault d req) = Normal r.
Proof.
  unfold earlier_route_comment, route_comment, sanitizeComment.
  destruct (emptiness_test_never_throws (Get (body req) "content"))
    as [[] ->]; simpl; [eauto|].
  split; [eauto|].
  destruct (replace_chain _); simpl; [auto|discriminate].
Qed.

Lemma comment_route_replies_agree_witness :
  reply (earlier_route_comment None (Database [] [] 0)
           (Request {[ "content" := VString "hi" ]}))
  = Normal (Json 200 (VObject {[ "success" := VBool true ]})).
Proof.
  apply (proj2 (comment_route_replies_agree None (Database [] [] 0)
                  (Request {[ "content" := VString "hi" ]}))).
  reflexivity.
Defined.

(** X18. For a non-empty text the two handlers differ in what they store
    and in nothing else: the earlier one bound the text as submitted, the
    patched one binds it sanitized; on a text without any of the four
    characters the two outcomes are the same. *)
Theorem comment_route_differs_by_sanitizing (fault : option string)
    (d : database) (req : request) (s : string) :
  body req !! "content" = Some (VString s) -> s <> EmptyString ->
  calls (earlier_route_comment fault d req)
  = [DbRun "INSERT INTO comments (content) VALUES (?)" [VString s]]
  /\ calls (route_comment fault d req)
     = [DbRun "INSERT INTO comments (content) VALUES (?)" [VString (sanitize s)]]
  /\ store (earlier_route_comment None d req) = insert_comment (VString s) d
  /\ store (route_comment None d req) = insert_comment (VString (sanitize s)) d
  /\ (no_markup s = true ->
      earlier_route_comment fault d req = route_comment fault d req).
Proof.
  intros Hget Hne.
  assert (forall f, route_comment f d req
                    = {| store := match f with
                                  | Some _ => d
                                  | None => insert_comment (VString (sanitize s)) d
                                  end;
                         calls := [DbRun "INSERT INTO comments (content) VALUES (?)"
                                     [VString (sanitize s)]];
                         reply := Normal match f with
                                         | Some msg => Json 500 (error_payload msg)
                                         | None => Json 200 (VObject {[ "success" := VBool true ]})
                                         end |}) as Hnew.
  { intros f. unfold route_comment.
    rewrite (sanitizeComment_string _ _ Hget Hne). simpl.
    rewrite Get_insert. reflexivity. }
  assert (forall f, earlier_route_comment f d req
                    = {| store := match f with
                                  | Some _ => d
                                  | None => insert_comment (VString s) d
                                  end;
                         calls := [DbRun "INSERT INTO comments (content) VALUES (?)"
                                     [VString s]];
                         reply := Normal match f with
                                         | Some msg => Json 500 (error_payload msg)
                                         | None => Json 200 (VObject {[ "success" := VBool true ]})
                                         end |}) as Hold.
  { intros f. unfold earlier_route_comment.
    rewrite (Get_Some _ _ _ Hget). simpl.
    rewrite (is_empty_false _ Hne). reflexivity. }
  rewrite !Hnew, !Hold. repeat split.
  intros Hsafe. rewrite (no_markup_sanitize _ Hsafe). reflexivity.
Qed.

Lemma comment_route_differs_by_sanitizing_witness :
  let d := Database [] [] 0 in
  let req := Request {[ "content" := VString "<script>" ]} in
  calls (earlier_route_comment None d req)
  = [DbRun "INSERT INTO comments (content) VALUES (?)" [VString "<script>"]]
  /\ calls (route_comment None d req)
     = [DbRun "INSERT INTO comments (content) VALUES (?)" [VString (sanitize "<script>")]]
  /\ store (earlier_route_comment None d req) = insert_comment (VString "<script>") d
  /\ store (route_comment None d req) = insert_comment (VString (sanitize "<script>")) d
  /\ (no_markup "<script>" = true ->
      earlier_route_comment None d req = route_comment None d req).
Proof.
  intros d req.
  apply (comment_route_differs_by_sanitizing None d req "<script>");
    [reflexivity|discriminate].
Defined.


(** ** White space and arrays in identifiers *)

Lemma trim_start_app (w s : string) :
  StrWhiteSpace_opt w = true -> trim_start (w +:+ s) = trim_start s.
Proof.
  unfold StrWhiteSpace_opt.
  remember (String.length w) as n eqn:Hn.
  revert w Hn. induction (lt_wf n) as [n _ IH]. intros w -> Hw.
  destruct w as [|c1 r1]; [reflexivity|].
  rewrite app_cons. simpl trim_start in *. destruct (ws1 c1).
  { apply (IH (String.length r1)); [simpl; lia|reflexivity|exact Hw]. }
  destruct r1 as [|c2 r2]; [discriminate|].
  rewrite app_cons. destruct (ws2 c1 c2).
  { apply (IH (String.length r2)); [simpl; lia|reflexivity|exact Hw]. }
  destruct r2 as [|c3 r3]; [discriminate|].
  rewrite app_cons. destruct (ws3 c1 c2 c3); [|discriminate].
  apply (IH (String.length r3)); [simpl; lia|reflexivity|exact Hw].
Qed.

Lemma validateUserId_string_verdict (o : gmap string value) (s : string) :
  s <> EmptyString ->
  passes (validateUserId (Request (<[ "id" := VString s ]> o)))
  = StringNumericLiteral s.
Proof.
  intros Hne. unfold validateUserId. simpl body. rewrite Get_insert. simpl.
  rewrite (is_empty_false _ Hne). simpl.
  destruct (StringNumericLiteral s); reflexivity.
Qed.

(** X19. A string of white space only, one character or more, passes
    [validateUserId] like a number would, and the lookup is made with
    it. *)
Theorem blank_ids_pass (sql_eq : Z -> value -> bool) (fault : option string)
    (d : database) (o : gmap string value) (s : string) :
  s <> EmptyString -> StrWhiteSpace_opt s = true ->
  let req := Request (<[ "id" := VString s ]> o) in
  validateUserId req = Next req
  /\ calls (route_user sql_eq fault d req)
     = [DbGet "SELECT id, name FROM users WHERE id = ?" [VString s]].
Proof.
  intros Hne Hws req.
  assert (validateUserId req = Next req) as Hnext.
  { unfold validateUserId, req. simpl body. rewrite Get_insert. simpl.
    rewrite (is_empty_false _ Hne). simpl.
    unfold StringNumericLiteral. unfold StrWhiteSpace_opt in Hws.
    rewrite Hws. reflexivity. }
  split; [exact Hnext|]. unfold route_user. rewrite Hnext.
  unfold req. simpl. rewrite Get_insert. reflexivity.
Qed.

Lemma blank_ids_pass_witness :
  let req := Request (<[ "id" := VString (String "009" (String "010" " ")) ]> ∅) in
  validateUserId req = Next req
  /\ calls (route_user integer_key_eq None (Database [] [] 0) req)
     = [DbGet "SELECT id, name FROM users WHERE id = ?"
          [VString (String "009" (String "010" " "))]].
Proof.
  apply (blank_ids_pass integer_key_eq None (Database [] [] 0) ∅
           (String "009" (String "010" " "))); [discriminate|reflexivity].
Defined.

(** X20. White space in front of a non-empty string identifier does not
    change the verdict of [validateUserId]. *)
Theorem leading_white_space_is_ignored (o : gmap string value) (w s : string) :
  StrWhiteSpace_opt w = true -> s <> EmptyString ->
  passes (validateUserId (Request (<[ "id" := VString (w +:+ s) ]> o)))
  = passes (validateUserId (Request (<[ "id" := VString s ]> o))).
Proof.
  intros Hw Hne.
  rewrite !validateUserId_string_verdict; [|exact Hne|].
  - unfold StringNumericLiteral. rewrite (trim_start_app _ _ Hw). reflexivity.
  - destruct w; [exact Hne|discriminate].
Qed.

Lemma leading_white_space_is_ignored_witness :
  passes (validateUserId (Request (<[ "id" := VString ("  " +:+ "42") ]> ∅)))
  = passes (validateUserId (Request (<[ "id" := VString "42" ]> ∅))).
Proof.
  apply leading_white_space_is_ignored; [reflexivity|discriminate].
Defined.

(** X21. Putting a non-empty string identifier inside a one-element array
    does not change the verdict of [validateUserId]: [isNaN] sees the
    string the array prints as. *)
Theorem array_wrapping_is_ignored (o : gmap string value) (s : string) :
  s <> EmptyString ->
  passes (validateUserId (Request (<[ "id" := VArray [VString s] ]> o)))
  = passes (validateUserId (Request (<[ "id" := VString s ]> o))).
Proof.
  intros Hne. rewrite (validateUserId_string_verdict _ _ Hne).
  unfold validateUserId. simpl body. rewrite Get_insert. simpl.
  destruct (StringNumericLiteral s); reflexivity.
Qed.

Lemma array_wrapping_is_ignored_witness :
  passes (validateUserId (Request (<[ "id" := VArray [VString "7"] ]> ∅)))
  = passes (validateUserId (Request (<[ "id" := VString "7" ]> ∅))).
Proof. apply array_wrapping_is_ignored. discriminate. Defined.
